(** * Polling trigger for AWS Batch jobs and the Datadog hook

    A shallow embedding of

      - [airflow/providers/amazon/aws/triggers/batch.py]
        (class [BatchOperatorTrigger]: constructor, [serialize], the cached
        [hook] property and the asynchronous generator [run]), and
      - [airflow/providers/datadog/hooks/datadog.py]
        (class [DatadogHook]: constructor, [validate_response],
        [send_metric], [query_metric], [post_event]),

    followed by the properties of these definitions.

    Python dictionaries are finite maps from strings to values, exceptions
    are an explicit result, and the side effects of a call (queries, log
    lines, sleeps, yielded events) are recorded in the order in which the
    code performs them. *)

From stdpp Require Import gmap strings list fin_maps.
From Equations Require Import Equations.
From Stdlib Require Import ZArith Lia.

(** ** Python values, exceptions and strings *)

Module Py.

(** The values that end up in the dictionaries of the two files. *)
Inductive value :=
| VNone
| VBool (b : bool)
| VInt (z : Z)
| VStr (s : string).

#[global] Instance value_eq_dec : EqDecision value.
Proof. solve_decision. Defined.

(** [None] or a string, as in the annotation [str | None]. *)
Definition of_opt_str (o : option string) : value :=
  match o with
  | Some s => VStr s
  | None => VNone
  end.

(** Exceptions that the modelled code raises or lets through. *)
Inductive exn :=
| KeyError (key : string)
| IndexError
| TypeError (what : string)
| AirflowException (msg : string)
| OtherError (text : string).

(** A computation that returns ([inr]) or raises ([inl]); [x ← c; k]
    runs [k] when [c] returns and passes the exception on otherwise. *)
#[global] Instance exn_bind : MBind (sum exn) :=
  fun A B k c =>
    match c with
    | inl e => inl e
    | inr a => k a
    end.

(** [d[key]] on a dictionary. *)
Definition getitem {V} (d : gmap string V) (key : string) : exn + V :=
  match d !! key with
  | Some v => inr v
  | None => inl (KeyError key)
  end.

(** [d.get(key, None)] on a dictionary of values. *)
Definition get_or_none (d : gmap string value) (key : string) : value :=
  match d !! key with
  | Some v => v
  | None => VNone
  end.

(** [needle in hay] on strings: [needle] occurs at some position of
    [hay]. *)
Fixpoint str_contains (needle hay : string) : bool :=
  if String.prefix needle hay then true
  else match hay with
       | EmptyString => false
       | String _ rest => str_contains needle rest
       end.

End Py.

Import Py.

(** ** [BatchOperatorTrigger] (triggers/batch.py) *)

Module Batch.

(** [BatchClientHook(aws_conn_id=..., region_name=...)]: the hook only
    carries the two connection parameters it was built from. *)
Record BatchClientHook := {
  hook_aws_conn_id : option string;
  hook_region_name : option string
}.

(** The entry ["status"] of one job description of a [describe_jobs]
    response, when the description has one. *)
Record job_detail := { jd_status : option string }.

(** The entry ["jobs"] of a response, when the response has one. *)
Record response := { resp_jobs : option (list job_detail) }.

(** botocore's [WaiterError]: [str(error)] and [error.last_response]. *)
Record WaiterError := {
  str : string;
  last_response : response
}.

(** Keyword arguments of [waiter.wait]: [jobs] and the two entries of
    [WaiterConfig]. *)
Record wait_args := {
  jobs : list (option string);
  Delay : Z;
  MaxAttempts : Z
}.

(** What one [await waiter.wait(...)] does: it returns, it raises a
    [WaiterError], or it raises something that is not a [WaiterError]. *)
Inductive wait_result :=
| Completed
| RaisesWaiterError (error : WaiterError)
| RaisesOther (error : exn).

(** A waiter answers the call with the given arguments that comes after
    [n] earlier calls on the same waiter object. *)
Definition Waiter := wait_args -> nat -> wait_result.

(** [TriggerEvent(payload)]. *)
Record TriggerEvent := { payload : gmap string value }.

(** The observable steps of [run], in program order. *)
Inductive effect :=
| ConnEnter (h : BatchClientHook)
| ConnExit
| Wait (a : wait_args)
| LogInfo (status : string) (attempt max_retries : Z)
| Sleep (seconds : Z)
| Yield (ev : TriggerEvent).

(** The instance: the five attributes set by the constructor and the slot
    that [cached_property] fills on the first access to [hook]. *)
Record BatchOperatorTrigger := {
  job_id : option string;
  max_retries : Z;
  aws_conn_id : option string;
  region_name : option string;
  poll_interval : Z;
  hook_cache : option BatchClientHook
}.

(** [__init__], lines 42-55. *)
Definition init (job_id : option string) (max_retries : Z)
    (aws_conn_id region_name : option string) (poll_interval : Z)
  : BatchOperatorTrigger :=
  {| job_id := job_id;
     max_retries := max_retries;
     aws_conn_id := aws_conn_id;
     region_name := region_name;
     poll_interval := poll_interval;
     hook_cache := None |}.

(** The defaults of the signature of [__init__]. *)
Definition default_job_id : option string := None.
Definition default_max_retries : Z := 10.
Definition default_aws_conn_id : option string := Some "aws_default".
Definition default_region_name : option string := None.
Definition default_poll_interval : Z := 30.

Definition classpath : string :=
  "airflow.providers.amazon.aws.triggers.batch.BatchOperatorTrigger".

(** [serialize], lines 57-68. *)
Definition serialize (self : BatchOperatorTrigger)
  : string * gmap string value :=
  (classpath,
   {[ "job_id" := of_opt_str (job_id self);
      "max_retries" := VInt (max_retries self);
      "aws_conn_id" := of_opt_str (aws_conn_id self);
      "region_name" := of_opt_str (region_name self);
      "poll_interval" := VInt (poll_interval self) ]}).

(** Reading a keyword argument annotated [str | None] or [int]. The
    constructor stores whatever it is given; the attributes of the instance
    are typed here, so a value of another type has no reading ([None]):
    such a call lies outside this model, it is not an error of the code. *)
Definition as_opt_str (v : value) : option (option string) :=
  match v with
  | VNone => Some None
  | VStr s => Some (Some s)
  | _ => None
  end.

Definition as_int (v : value) : option Z :=
  match v with
  | VInt z => Some z
  | _ => None
  end.

(** A keyword argument, or the default of the signature. *)
Definition kwarg {A} (kwargs : gmap string value) (key : string)
    (read : value -> option A) (default : A) : option A :=
  match kwargs !! key with
  | Some v => read v
  | None => Some default
  end.

Definition parameters : gset string :=
  {[ "job_id"; "max_retries"; "aws_conn_id"; "region_name"; "poll_interval" ]}.

(** The constructor called with a dictionary of keyword arguments: a
    keyword that is no parameter of [__init__] is a [TypeError] of the
    call; a missing one takes its default. The result is [inr None] when
    some value has no reading in the typed attributes. *)
Definition init_kwargs (kwargs : gmap string value)
  : exn + option BatchOperatorTrigger :=
  if decide (dom kwargs ⊆ parameters) then
    inr (j ← kwarg kwargs "job_id" as_opt_str default_job_id;
         m ← kwarg kwargs "max_retries" as_int default_max_retries;
         a ← kwarg kwargs "aws_conn_id" as_opt_str default_aws_conn_id;
         r ← kwarg kwargs "region_name" as_opt_str default_region_name;
         p ← kwarg kwargs "poll_interval" as_int default_poll_interval;
         Some (init j m a r p))
  else inl (TypeError "unexpected keyword argument").

(** The cached property [hook], lines 70-72: built from the attributes on
    the first access, read back from the instance afterwards. *)
Definition hook (self : BatchOperatorTrigger)
  : BatchClientHook * BatchOperatorTrigger :=
  match hook_cache self with
  | Some h => (h, self)
  | None =>
      let h := {| hook_aws_conn_id := aws_conn_id self;
                  hook_region_name := region_name self |} in
      (h, {| job_id := job_id self;
             max_retries := max_retries self;
             aws_conn_id := aws_conn_id self;
             region_name := region_name self;
             poll_interval := poll_interval self;
             hook_cache := Some h |})
  end.

(** [error.last_response["jobs"][0]["status"]], the first argument of
    the log line. *)
Definition last_job_status (r : response) : exn + string :=
  match resp_jobs r with
  | None => inl (KeyError "jobs")
  | Some [] => inl IndexError
  | Some (j :: _) =>
      match jd_status j with
      | None => inl (KeyError "status")
      | Some s => inr s
      end
  end.

(** The two payloads built in [run]. *)
Definition failure_event (message : string) : TriggerEvent :=
  {| payload := {[ "status" := VStr "failure"; "message" := VStr message ]} |}.

Definition success_event (job_id : option string) : TriggerEvent :=
  {| payload := {[ "status" := VStr "success"; "job_id" := of_opt_str job_id ]} |}.

(** How the [while] statement is left. *)
Inductive loop_exit :=
| LoopEnded
| LoopRaised (e : exn).

Record loop_result := {
  lr_effects : list effect;
  lr_attempt : Z;
  lr_exit : loop_exit
}.

Definition after (es : list effect) (r : loop_result) : loop_result :=
  {| lr_effects := es ++ lr_effects r;
     lr_attempt := lr_attempt r;
     lr_exit := lr_exit r |}.

Section Run.

Variable self : BatchOperatorTrigger.
Variable waiter : Waiter.

(** The arguments of the call of lines 82-88. *)
Definition args : wait_args :=
  {| jobs := [job_id self];
     Delay := poll_interval self;
     MaxAttempts := 1 |}.

(** The [while] loop of lines 79-102, entered with the current value of
    [attempt] and the number of calls already made on the waiter. The
    loop runs at most [max_retries - attempt] more times. The loop is
    modelled for a task that is not cancelled: [asyncio.sleep] returns
    after the interval. *)
Equations? poll (attempt : Z) (calls : nat) : loop_result
  by wf (Z.to_nat (max_retries self - attempt)) lt :=
poll attempt calls with Z_lt_dec attempt (max_retries self) => {
  | right _ :=
      {| lr_effects := []; lr_attempt := attempt; lr_exit := LoopEnded |};
  | left _ with waiter args calls => {
      | Completed :=
          {| lr_effects := [Wait args];
             lr_attempt := attempt + 1;
             lr_exit := LoopEnded |};
      | RaisesOther e :=
          {| lr_effects := [Wait args];
             lr_attempt := attempt + 1;
             lr_exit := LoopRaised e |};
      | RaisesWaiterError error
          with str_contains "terminal failure" (str error) => {
          | true :=
              {| lr_effects :=
                   [Wait args;
                    Yield (failure_event
                             ("Delete Cluster Failed: " +:+ str error))];
                 lr_attempt := attempt + 1;
                 lr_exit := LoopEnded |};
          | false with last_job_status (last_response error) => {
              | inl e :=
                  {| lr_effects := [Wait args];
                     lr_attempt := attempt + 1;
                     lr_exit := LoopRaised e |};
              | inr status :=
                  (* [int(self.poll_interval)] is the interval itself. *)
                  after [Wait args;
                         LogInfo status (attempt + 1) (max_retries self);
                         Sleep (poll_interval self)]
                        (poll (attempt + 1) (S calls)) } } } }.
Proof. lia. Qed.

End Run.

(** How the generator ends: it is exhausted, or an exception leaves it. *)
Inductive completion :=
| Returned
| Raised (e : exn).

Record run_result := {
  effects : list effect;
  finish : completion
}.

(** Leaving the [async with] block and, unless an exception is on its
    way out, the statement of lines 104-107. *)
Definition leave (self : BatchOperatorTrigger) (conn_hook : BatchClientHook)
    (r : loop_result) : run_result :=
  match lr_exit r with
  | LoopRaised e =>
      {| effects := [ConnEnter conn_hook] ++ lr_effects r ++ [ConnExit];
         finish := Raised e |}
  | LoopEnded =>
      let last :=
        if decide (lr_attempt r >= max_retries self)%Z then
          failure_event "Job Failed - max attempts reached."
        else success_event (job_id self) in
      {| effects :=
           [ConnEnter conn_hook] ++ lr_effects r ++ [ConnExit; Yield last];
         finish := Returned |}
  end.

Section Environment.

(** [hook.get_waiter(name, deferrable=True, client=client)]. *)
Variable get_waiter : BatchClientHook -> string -> Waiter.

(** [run], lines 74-107, with the generator driven until it is
    exhausted. The result comes with the instance as the call leaves
    it. The call is modelled from the point where the hook is built, the
    connection is entered and the waiter is obtained (lines 76-77), and up
    to a connection that is left without an error: what [run] does when
    one of these steps raises is not part of the model. *)
Definition run (self : BatchOperatorTrigger)
  : run_result * BatchOperatorTrigger :=
  let '(conn_hook, self) := hook self in
  let '(h, self) := hook self in
  let waiter := get_waiter h "batch_job_complete" in
  (leave self conn_hook (poll self waiter 0 0), self).

(** What [waiter.wait] does on the call of [run] that comes after [n]
    earlier ones. *)
Definition reply (self : BatchOperatorTrigger) (n : nat) : wait_result :=
  get_waiter (fst (hook self)) "batch_job_complete" (args self) n.

End Environment.

(** The job is not done yet: a [WaiterError] whose text does not mention a
    terminal failure and whose last response tells the status of the
    job. *)
Definition is_pending (r : wait_result) : bool :=
  match r with
  | RaisesWaiterError error =>
      negb (str_contains "terminal failure" (str error))
      && match last_job_status (last_response error) with
         | inr _ => true
         | inl _ => false
         end
  | _ => false
  end.

(** Projections of a sequence of effects. *)
Definition events (es : list effect) : list TriggerEvent :=
  omap (fun e => match e with Yield ev => Some ev | _ => None end) es.

Definition queries (es : list effect) : list wait_args :=
  omap (fun e => match e with Wait a => Some a | _ => None end) es.

Definition sleeps (es : list effect) : list Z :=
  omap (fun e => match e with Sleep s => Some s | _ => None end) es.

End Batch.

(** ** [DatadogHook] (hooks/datadog.py) *)

Module Datadog.

(** A response of the monitoring API: a dictionary. *)
Abbreviation response := (gmap string value) (only parsing).

(** The part of an Airflow connection that the constructor reads. *)
Record Connection := {
  conn_host : option string;
  extra_dejson : gmap string value
}.

(** The attributes of the hook. *)
Record DatadogHook := {
  api_key : value;
  app_key : value;
  api_host : value;
  source_type_name : value;
  host : option string
}.

Section Api.

(** [Union[float, int]], the type of a datapoint. *)
Variable number : Type.

(** Keyword arguments of [api.Metric.send]. *)
Record send_args := {
  send_metric_name : string;
  send_points : number;
  send_host : option string;
  send_tags : option (list string);
  send_type : option string;
  send_interval : option Z
}.

(** Keyword arguments of [api.Metric.query]. *)
Record query_args := {
  query_start : Z;
  query_end : Z;
  query_query : string
}.

(** Keyword arguments of [api.Event.create]. *)
Record event_args := {
  event_title : string;
  event_text : string;
  event_aggregation_key : option string;
  event_alert_type : option string;
  event_date_happened : option Z;
  event_handle : option string;
  event_priority : option string;
  event_related_event_id : option Z;
  event_tags : option (list string);
  event_host : option string;
  event_device_name : option (list string);
  event_source_type_name : value
}.

(** The observable steps of the hook, in program order. *)
Inductive effect :=
| LogInfo (msg : string)
| LogError (msg : string) (r : response)
| Initialize (api_key app_key api_host : value)
| MetricSend (a : send_args)
| MetricQuery (a : query_args)
| EventCreate (a : event_args).

(** A call of the monitoring API, as opposed to logging and to the
    set-up of the client library. *)
Definition is_api_call (e : effect) : bool :=
  match e with
  | MetricSend _ | MetricQuery _ | EventCreate _ => true
  | _ => false
  end.

(** The replies of the [datadog] client library and the connection
    store of the host. *)
Class Services := {
  get_connection : string -> exn + Connection;
  Metric_send : send_args -> response;
  Metric_query : query_args -> response;
  Event_create : event_args -> response
}.

Context `{Services}.

(** [__init__], lines 41-57. *)
Definition init (datadog_conn_id : string)
  : list effect * (exn + DatadogHook) :=
  match get_connection datadog_conn_id with
  | inl e => ([], inl e)
  | inr conn =>
      let self :=
        {| api_key := get_or_none (extra_dejson conn) "api_key";
           app_key := get_or_none (extra_dejson conn) "app_key";
           api_host := get_or_none (extra_dejson conn) "api_host";
           source_type_name :=
             get_or_none (extra_dejson conn) "source_type_name";
           host := conn_host conn |} in
      if decide (api_key self = VNone) then
        ([],
         inl (AirflowException
                "api_key must be specified in the Datadog connection details"))
      else
        ([LogInfo "Setting up api keys for Datadog";
          Initialize (api_key self) (app_key self) (api_host self)],
         inr self)
  end.

(** [validate_response], lines 59-63. *)
Definition validate_response (r : response) : list effect * (exn + unit) :=
  match getitem r "status" with
  | inl e => ([], inl e)
  | inr status =>
      if decide (status ≠ VStr "ok") then
        ([LogError "Datadog returned: %s" r],
         inl (AirflowException "Error status received from Datadog"))
      else ([], inr tt)
  end.

(** The last two statements of the three methods: validate, then
    return the response. *)
Definition validated (call : effect) (r : response)
  : list effect * (exn + response) :=
  let '(es, v) := validate_response r in
  (call :: es, _ ← v; inr r).

(** [send_metric], lines 65-87. *)
Definition send_metric (self : DatadogHook) (metric_name : string)
    (datapoint : number) (tags : option (list string))
    (type_ : option string) (interval : option Z)
  : list effect * (exn + response) :=
  let a := {| send_metric_name := metric_name;
              send_points := datapoint;
              send_host := host self;
              send_tags := tags;
              send_type := type_;
              send_interval := interval |} in
  validated (MetricSend a) (Metric_send a).

(** [query_metric], lines 89-103; [now] is [int(time.time())]. *)
Definition query_metric (now : Z) (self : DatadogHook) (query : string)
    (from_seconds_ago to_seconds_ago : Z)
  : list effect * (exn + response) :=
  let a := {| query_start := now - from_seconds_ago;
              query_end := now - to_seconds_ago;
              query_query := query |} in
  validated (MetricQuery a) (Metric_query a).

(** [post_event], lines 105-153. *)
Definition post_event (self : DatadogHook) (title text : string)
    (aggregation_key alert_type : option string)
    (date_happened : option Z) (handle priority : option string)
    (related_event_id : option Z) (tags device_name : option (list string))
  : list effect * (exn + response) :=
  let a := {| event_title := title;
              event_text := text;
              event_aggregation_key := aggregation_key;
              event_alert_type := alert_type;
              event_date_happened := date_happened;
              event_handle := handle;
              event_priority := priority;
              event_related_event_id := related_event_id;
              event_tags := tags;
              event_host := host self;
              event_device_name := device_name;
              event_source_type_name := source_type_name self |} in
  validated (EventCreate a) (Event_create a).

End Api.

(** A method result for a reply of the API: the reply itself when its
    status is ["ok"], an exception otherwise. *)
Definition passes_on (result : exn + gmap string value)
    (reply : gmap string value) : Prop :=
  (reply !! "status" = Some (VStr "ok") -> result = inr reply)
  /\ (reply !! "status" <> Some (VStr "ok") -> exists e, result = inl e)
  /\ (forall r, result = inr r -> r = reply /\ r !! "status" = Some (VStr "ok")).

End Datadog.

(** ** Scenarios

    Concrete providers and instances, used to run the definitions. *)

Module Scenario.

Import Batch.

(** A waiter that answers from a script and keeps answering [rest] once
    the script is used up. *)
Definition scripted (rs : list wait_result) (rest : wait_result) : Waiter :=
  fun _ n => default rest (rs !! n).

(** The same scripted waiter for every hook and waiter name. *)
Definition provider (rs : list wait_result) (rest : wait_result)
  : BatchClientHook -> string -> Waiter :=
  fun _ _ => scripted rs rest.

(** The single attempt of the waiter ran out while the job had the given
    status. *)
Definition Pending (status : string) : wait_result :=
  RaisesWaiterError
    {| str := "Waiter batch_job_complete failed: Max attempts exceeded";
       last_response :=
         {| resp_jobs := Some [ {| jd_status := Some status |} ] |} |}.

(** The waiter matched its failure state. *)
Definition terminal_error (detail : string) : WaiterError :=
  {| str := "Waiter batch_job_complete failed: "
            +:+ "Waiter encountered a terminal failure state: " +:+ detail;
     last_response :=
       {| resp_jobs := Some [ {| jd_status := Some "FAILED" |} ] |} |}.

Definition TerminalFailure (detail : string) : wait_result :=
  RaisesWaiterError (terminal_error detail).

(** The service answered the status query with an error response, which
    describes no job. *)
Definition error_response : WaiterError :=
  {| str := "Waiter batch_job_complete failed: "
            +:+ "An error occurred (TooManyRequestsException): Rate exceeded";
     last_response := {| resp_jobs := None |} |}.

Definition ErrorResponse : wait_result := RaisesWaiterError error_response.

Definition job42 : BatchOperatorTrigger :=
  init (Some "job-42") 3 (Some "aws_default") None 30.

End Scenario.

Module DatadogScenario.

Import Datadog.

(** A connection store with one connection that has an API key and nothing
    else, and one without any key. *)
Definition connections (conn_id : string) : exn + Connection :=
  if decide (conn_id = "datadog_default") then
    inr {| conn_host := None;
           extra_dejson := {[ "api_key" := VStr "0123456789abcdef" ]} |}
  else if decide (conn_id = "datadog_no_key") then
    inr {| conn_host := Some "worker-1"; extra_dejson := ∅ |}
  else inl (OtherError "The conn_id isn't defined").

(** A client library that accepts metrics and events and fails queries. *)
Definition services : Services Z :=
  {| get_connection := connections;
     Metric_send := fun _ => {[ "status" := VStr "ok" ]};
     Metric_query := fun _ => {[ "status" := VStr "error" ]};
     Event_create := fun _ => {[ "status" := VStr "ok" ]} |}.

(** A client library whose replies are error descriptions without the
    entry ["status"]. *)
Definition refusing_services : Services Z :=
  {| get_connection := connections;
     Metric_send := fun _ => {[ "errors" := VStr "Forbidden" ]};
     Metric_query := fun _ => {[ "errors" := VStr "Forbidden" ]};
     Event_create := fun _ => {[ "errors" := VStr "Forbidden" ]} |}.

End DatadogScenario.

(** ** Kinds of effects *)

Module Shape.

Import Batch.

(** Entering or leaving the connection. *)
Definition is_conn (e : effect) : bool :=
  match e with
  | ConnEnter _ | ConnExit => true
  | _ => false
  end.

(** A query or a sleep. *)
Definition is_wait_or_sleep (e : effect) : bool :=
  match e with
  | Wait _ | Sleep _ => true
  | _ => false
  end.

(** The hook that line 72 builds from the attributes. *)
Definition hook_of_attributes (self : BatchOperatorTrigger) : BatchClientHook :=
  {| hook_aws_conn_id := aws_conn_id self;
     hook_region_name := region_name self |}.

End Shape.

(** * Properties *)

(** ** Substrings *)

Section Strings.

Lemma append_nil (s : string) : "" +:+ s = s.
Proof. reflexivity. Qed.

Lemma append_cons c (a b : string) : String c a +:+ b = String c (a +:+ b).
Proof. reflexivity. Qed.

Lemma append_assoc (a b c : string) : (a +:+ b) +:+ c = a +:+ b +:+ c.
Proof.
  induction a as [|x a IH]; [done|]. by rewrite !append_cons, IH.
Qed.

Lemma prefix_app_iff (n h : string) :
  String.prefix n h = true <-> exists b, h = n +:+ b.
Proof.
  revert h. induction n as [|c n IH]; intros h.
  - split; [intros _; by exists h | intros _; by destruct h].
  - destruct h as [|d h]; cbn [String.prefix].
    + split; [discriminate | intros [b Hb]; discriminate].
    + destruct (Ascii.ascii_dec c d) as [->|Hne].
      * rewrite IH. split; intros [b Hb]; exists b.
        -- by rewrite append_cons, <- Hb.
        -- rewrite append_cons in Hb. by injection Hb.
      * split; [discriminate | intros [b Hb]].
        rewrite append_cons in Hb. injection Hb; congruence.
Qed.

(** [str_contains] is the substring relation. *)
Lemma str_contains_iff (n h : string) :
  str_contains n h = true <-> exists a b, h = a +:+ n +:+ b.
Proof.
  induction h as [|c h IH]; cbn [str_contains].
  - destruct (String.prefix n "") eqn:E.
    + split; [intros _ | done].
      apply prefix_app_iff in E as [b Hb]. by exists "", b.
    + split; [discriminate|]. intros (a & b & Hab).
      destruct a; [|discriminate]. rewrite append_nil in Hab.
      assert (String.prefix n "" = true) by (apply prefix_app_iff; eauto).
      congruence.
  - destruct (String.prefix n (String c h)) eqn:E.
    + split; [intros _ | done].
      apply prefix_app_iff in E as [b Hb]. by exists "", b.
    + rewrite IH. split.
      * intros (a & b & ->). by exists (String c a), b.
      * intros (a & b & Hab). destruct a as [|c' a].
        -- rewrite append_nil in Hab.
           assert (String.prefix n (String c h) = true)
             by (apply prefix_app_iff; eauto).
           congruence.
        -- rewrite append_cons in Hab. injection Hab as -> ->. eauto.
Qed.

(** What occurs in a string occurs in the string with something put in
    front of it. *)
Lemma str_contains_append_r (n p h : string) :
  str_contains n h = true -> str_contains n (p +:+ h) = true.
Proof.
  rewrite !str_contains_iff. intros (a & b & ->). exists (p +:+ a), b.
  by rewrite append_assoc.
Qed.

End Strings.

(** ** The polling loop *)

Section Projections.

Import Batch.

Lemma events_app (es1 es2 : list effect) :
  events (es1 ++ es2) = events es1 ++ events es2.
Proof. apply omap_app. Qed.

Lemma queries_app (es1 es2 : list effect) :
  queries (es1 ++ es2) = queries es1 ++ queries es2.
Proof. apply omap_app. Qed.

Lemma sleeps_app (es1 es2 : list effect) :
  sleeps (es1 ++ es2) = sleeps es1 ++ sleeps es2.
Proof. apply omap_app. Qed.

Lemma after_after (es1 es2 : list effect) (r : loop_result) :
  after es1 (after es2 r) = after (es1 ++ es2) r.
Proof. unfold after; simpl. by rewrite app_assoc. Qed.

End Projections.

Section Poll.

Import Batch.

Variable self : BatchOperatorTrigger.
Variable waiter : Waiter.

(** One turn of the loop, as an equation on [poll]. *)
Lemma poll_eq (attempt : Z) (calls : nat) :
  poll self waiter attempt calls =
  if decide (attempt < max_retries self)%Z then
    match waiter (args self) calls with
    | Completed =>
        {| lr_effects := [Wait (args self)];
           lr_attempt := attempt + 1;
           lr_exit := LoopEnded |}
    | RaisesOther e =>
        {| lr_effects := [Wait (args self)];
           lr_attempt := attempt + 1;
           lr_exit := LoopRaised e |}
    | RaisesWaiterError error =>
        if str_contains "terminal failure" (str error) then
          {| lr_effects :=
               [Wait (args self);
                Yield (failure_event ("Delete Cluster Failed: " +:+ str error))];
             lr_attempt := attempt + 1;
             lr_exit := LoopEnded |}
        else
          match last_job_status (last_response error) with
          | inl e =>
              {| lr_effects := [Wait (args self)];
                 lr_attempt := attempt + 1;
                 lr_exit := LoopRaised e |}
          | inr status =>
              after [Wait (args self);
                     LogInfo status (attempt + 1) (max_retries self);
                     Sleep (poll_interval self)]
                    (poll self waiter (attempt + 1) (S calls))
          end
    end
  else {| lr_effects := []; lr_attempt := attempt; lr_exit := LoopEnded |}.
Proof.
  rewrite poll_equation_1.
  destruct (Z_lt_dec attempt (max_retries self)) as [Hlt|Hge];
    case_decide; try lia; [|reflexivity].
  simpl.
  destruct (waiter (args self) calls) as [|error|e]; simpl;
    [reflexivity| |reflexivity].
  destruct (str_contains "terminal failure" (str error)); simpl;
    [reflexivity|].
  destruct (last_job_status (last_response error)); reflexivity.
Qed.

(** A pending reply below the bound: log, sleep, next turn. *)
Lemma poll_pending_step (attempt : Z) (calls : nat) :
  (attempt < max_retries self)%Z ->
  is_pending (waiter (args self) calls) = true ->
  exists status,
    poll self waiter attempt calls =
    after [Wait (args self);
           LogInfo status (attempt + 1) (max_retries self);
           Sleep (poll_interval self)]
          (poll self waiter (attempt + 1) (S calls)).
Proof.
  intros Hlt Hp. rewrite poll_eq. rewrite decide_True by done.
  unfold is_pending in Hp.
  destruct (waiter (args self) calls) as [|error|e]; try discriminate.
  apply andb_true_iff in Hp as [Hs Hl]. apply negb_true_iff in Hs. rewrite Hs.
  destruct (last_job_status (last_response error)) as [|status];
    [discriminate|].
  by exists status.
Qed.

(** [n] pending replies in a row, all below the bound. *)
Lemma poll_pending_prefix (n : nat) : forall (attempt : Z) (calls : nat),
  (attempt + Z.of_nat n <= max_retries self)%Z ->
  (forall i, (i < n)%nat ->
             is_pending (waiter (args self) (calls + i)) = true) ->
  exists es,
    poll self waiter attempt calls =
      after es (poll self waiter (attempt + Z.of_nat n) (calls + n))
    /\ events es = []
    /\ queries es = replicate n (args self)
    /\ sleeps es = replicate n (poll_interval self).
Proof.
  induction n as [|n IH]; intros attempt calls Hle Hp.
  - exists []. rewrite Z.add_0_r, Nat.add_0_r.
    by destruct (poll self waiter attempt calls).
  - destruct (poll_pending_step attempt calls) as [status Hstep]; [lia | |].
    { rewrite <- (Nat.add_0_r calls). apply Hp. lia. }
    destruct (IH (attempt + 1)%Z (S calls)) as (es & Hes & Hev & Hq & Hs);
      [lia | |].
    { intros i Hi. replace (S calls + i)%nat with (calls + S i)%nat by lia.
      apply Hp. lia. }
    eexists. split; [|split; [|split]].
    + rewrite Hstep, Hes, after_after.
      replace (attempt + 1 + Z.of_nat n)%Z
        with (attempt + Z.of_nat (S n))%Z by lia.
      replace (S calls + n)%nat with (calls + S n)%nat by lia. reflexivity.
    + rewrite events_app, Hev. reflexivity.
    + rewrite queries_app, Hq. reflexivity.
    + rewrite sleeps_app, Hs. reflexivity.
Qed.

(** The loop up to the call of attempt [k]. *)
Lemma poll_reaches (k : nat) :
  (1 <= k)%nat ->
  (Z.of_nat k <= max_retries self)%Z ->
  (forall i, (i < k - 1)%nat -> is_pending (waiter (args self) i) = true) ->
  exists es,
    poll self waiter 0 0 =
      after es (poll self waiter (Z.of_nat k - 1) (k - 1))
    /\ events es = []
    /\ queries es = replicate (k - 1) (args self)
    /\ sleeps es = replicate (k - 1) (poll_interval self).
Proof.
  intros Hk Hle Hp.
  destruct (poll_pending_prefix (k - 1) 0 0) as (es & Hes & Hrest);
    [lia | done |].
  exists es. split; [|done]. rewrite Hes. do 2 f_equal. lia.
Qed.

Lemma poll_completed_at (k : nat) :
  (1 <= k)%nat ->
  (Z.of_nat k <= max_retries self)%Z ->
  (forall i, (i < k - 1)%nat -> is_pending (waiter (args self) i) = true) ->
  waiter (args self) (k - 1) = Completed ->
  exists es,
    poll self waiter 0 0 =
      {| lr_effects := es ++ [Wait (args self)];
         lr_attempt := Z.of_nat k;
         lr_exit := LoopEnded |}
    /\ events es = []
    /\ queries es = replicate (k - 1) (args self)
    /\ sleeps es = replicate (k - 1) (poll_interval self).
Proof.
  intros Hk Hle Hp Hc.
  destruct (poll_reaches k) as (es & Hes & Hrest); [done..|].
  exists es. split; [|done].
  rewrite Hes, poll_eq, decide_True, Hc by lia. unfold after; simpl.
  do 2 f_equal. lia.
Qed.

Lemma poll_terminal_at (k : nat) (error : WaiterError) :
  (1 <= k)%nat ->
  (Z.of_nat k <= max_retries self)%Z ->
  (forall i, (i < k - 1)%nat -> is_pending (waiter (args self) i) = true) ->
  waiter (args self) (k - 1) = RaisesWaiterError error ->
  str_contains "terminal failure" (str error) = true ->
  exists es,
    poll self waiter 0 0 =
      {| lr_effects :=
           es ++ [Wait (args self);
                  Yield (failure_event
                           ("Delete Cluster Failed: " +:+ str error))];
         lr_attempt := Z.of_nat k;
         lr_exit := LoopEnded |}
    /\ events es = []
    /\ queries es = replicate (k - 1) (args self)
    /\ sleeps es = replicate (k - 1) (poll_interval self).
Proof.
  intros Hk Hle Hp Hc Ht.
  destruct (poll_reaches k) as (es & Hes & Hrest); [done..|].
  exists es. split; [|done].
  rewrite Hes, poll_eq, decide_True, Hc, Ht by lia. unfold after; simpl.
  do 2 f_equal. lia.
Qed.

Lemma poll_exhausted :
  (0 <= max_retries self)%Z ->
  (forall i, (Z.of_nat i < max_retries self)%Z ->
             is_pending (waiter (args self) i) = true) ->
  exists es,
    poll self waiter 0 0 =
      {| lr_effects := es;
         lr_attempt := max_retries self;
         lr_exit := LoopEnded |}
    /\ events es = []
    /\ queries es = replicate (Z.to_nat (max_retries self)) (args self)
    /\ sleeps es = replicate (Z.to_nat (max_retries self)) (poll_interval self).
Proof.
  intros Hle Hp.
  destruct (poll_pending_prefix (Z.to_nat (max_retries self)) 0 0)
    as (es & Hes & Hrest); [lia | intros i Hi; apply Hp; lia |].
  exists es. split; [|done].
  rewrite Hes, poll_eq, decide_False by lia. unfold after; simpl.
  rewrite app_nil_r. f_equal. lia.
Qed.

(** Whatever the waiter does, the loop yields nothing but failure
    events. *)
Lemma poll_events (n : nat) : forall (attempt : Z) (calls : nat),
  (Z.to_nat (max_retries self - attempt) <= n)%nat ->
  Forall (fun ev => exists message, ev = failure_event message)
         (events (lr_effects (poll self waiter attempt calls))).
Proof.
  induction n as [|n IH]; intros attempt calls Hn; rewrite poll_eq.
  - rewrite decide_False by lia. constructor.
  - case_decide; [|constructor].
    destruct (waiter (args self) calls) as [|error|e]; [constructor| |constructor].
    destruct (str_contains "terminal failure" (str error)).
    + repeat constructor. eauto.
    + destruct (last_job_status (last_response error)); [constructor|].
      apply (IH (attempt + 1)%Z (S calls)). lia.
Qed.

End Poll.

Section Classification.

Import Batch.

Variable self : BatchOperatorTrigger.
Variable waiter : Waiter.

(** What one turn of the loop does with a [WaiterError]: the text decides.
    With ["terminal failure"] in it, the turn yields the failure event and
    leaves the loop; without it, and with a job status to log, the turn
    sleeps and goes on to the next test of the bound. *)
Lemma waiter_error_classification (attempt : Z) (calls : nat)
    (error : WaiterError) :
  (attempt < max_retries self)%Z ->
  waiter (args self) calls = RaisesWaiterError error ->
  (str_contains "terminal failure" (str error) = true ->
   poll self waiter attempt calls =
     {| lr_effects :=
          [Wait (args self);
           Yield (failure_event ("Delete Cluster Failed: " +:+ str error))];
        lr_attempt := attempt + 1;
        lr_exit := LoopEnded |})
  /\ (str_contains "terminal failure" (str error) = false ->
      forall status, last_job_status (last_response error) = inr status ->
      poll self waiter attempt calls =
        after [Wait (args self);
               LogInfo status (attempt + 1) (max_retries self);
               Sleep (poll_interval self)]
              (poll self waiter (attempt + 1) (S calls))).
Proof.
  intros Hlt Hw. rewrite poll_eq, decide_True, Hw by done.
  split; [by intros -> | by intros -> status ->].
Qed.

(** At the bound, no further query is made. *)
Lemma poll_at_bound (attempt : Z) (calls : nat) :
  (max_retries self <= attempt)%Z ->
  poll self waiter attempt calls =
    {| lr_effects := []; lr_attempt := attempt; lr_exit := LoopEnded |}.
Proof. intros Hge. by rewrite poll_eq, decide_False by lia. Qed.

End Classification.

(** ** One call of [run] *)

Section RunFacts.

Import Batch.

Variable get_waiter : BatchClientHook -> string -> Waiter.

(** Reading [hook] leaves the five attributes alone. *)
Lemma hook_attributes (self : BatchOperatorTrigger) :
  job_id (snd (hook self)) = job_id self
  /\ max_retries (snd (hook self)) = max_retries self
  /\ aws_conn_id (snd (hook self)) = aws_conn_id self
  /\ region_name (snd (hook self)) = region_name self
  /\ poll_interval (snd (hook self)) = poll_interval self.
Proof. unfold hook. by destruct (hook_cache self). Qed.

Lemma hook_args (self : BatchOperatorTrigger) :
  args (snd (hook self)) = args self.
Proof. unfold hook. by destruct (hook_cache self). Qed.

(** The second access reads what the first one stored. *)
Lemma hook_again (self : BatchOperatorTrigger) :
  hook (snd (hook self)) = (fst (hook self), snd (hook self)).
Proof.
  unfold hook. destruct (hook_cache self) eqn:E; simpl; [by rewrite E|done].
Qed.

Lemma run_eq (self : BatchOperatorTrigger) :
  run get_waiter self =
  (leave (snd (hook self)) (fst (hook self))
     (poll (snd (hook self))
           (get_waiter (fst (hook self)) "batch_job_complete") 0 0),
   snd (hook self)).
Proof.
  unfold run. destruct (hook self) as [h self'] eqn:E.
  assert (E' : hook self' = (h, self')).
  { pose proof (hook_again self) as Ha. by rewrite E in Ha. }
  by rewrite E'.
Qed.

(** The result of [run] from the result of the loop, with the attributes of
    the instance the call started from. *)
Lemma run_leave (self : BatchOperatorTrigger) (r : loop_result) :
  poll (snd (hook self))
       (get_waiter (fst (hook self)) "batch_job_complete") 0 0 = r ->
  fst (run get_waiter self) =
  match lr_exit r with
  | LoopRaised e =>
      {| effects := [ConnEnter (fst (hook self))] ++ lr_effects r ++ [ConnExit];
         finish := Raised e |}
  | LoopEnded =>
      {| effects :=
           [ConnEnter (fst (hook self))] ++ lr_effects r
           ++ [ConnExit;
               Yield (if decide (lr_attempt r >= max_retries self)%Z
                      then failure_event "Job Failed - max attempts reached."
                      else success_event (job_id self))];
         finish := Returned |}
  end.
Proof.
  intros <-. rewrite run_eq. unfold leave; simpl.
  destruct (hook_attributes self) as (-> & -> & _). done.
Qed.

Lemma replicate_pred_snoc {A} (k : nat) (x : A) :
  (1 <= k)%nat -> replicate (k - 1) x ++ [x] = replicate k x.
Proof.
  intros Hk. destruct k as [|k]; [lia|]. simpl. rewrite Nat.sub_0_r.
  symmetry. apply replicate_cons_app.
Qed.

(** The job is reported done at attempt [k]. *)
Lemma succeeded_at (self : BatchOperatorTrigger) (k : nat) :
  (1 <= k)%nat ->
  (Z.of_nat k <= max_retries self)%Z ->
  (forall i, (i < k - 1)%nat -> is_pending (reply get_waiter self i) = true) ->
  reply get_waiter self (k - 1) = Completed ->
  queries (effects (fst (run get_waiter self))) = replicate k (args self)
  /\ events (effects (fst (run get_waiter self))) =
       [if decide (Z.of_nat k >= max_retries self)%Z
        then failure_event "Job Failed - max attempts reached."
        else success_event (job_id self)]
  /\ finish (fst (run get_waiter self)) = Returned.
Proof.
  intros Hk Hle Hp Hc. unfold reply in *.
  destruct (hook_attributes self) as (_ & Hm & _).
  destruct (poll_completed_at (snd (hook self))
              (get_waiter (fst (hook self)) "batch_job_complete") k)
    as (es & Hes & Hev & Hq & _);
    rewrite ?hook_args, ?Hm; try done.
  rewrite (run_leave self _ Hes). simpl.
  rewrite !queries_app, !events_app, Hq, Hev, hook_args. simpl.
  split; [|done].
  rewrite app_nil_r. by apply replicate_pred_snoc.
Qed.

(** The waiter reports a terminal failure at attempt [k]. *)
Lemma terminal_at (self : BatchOperatorTrigger) (k : nat) (error : WaiterError) :
  (1 <= k)%nat ->
  (Z.of_nat k <= max_retries self)%Z ->
  (forall i, (i < k - 1)%nat -> is_pending (reply get_waiter self i) = true) ->
  reply get_waiter self (k - 1) = RaisesWaiterError error ->
  str_contains "terminal failure" (str error) = true ->
  queries (effects (fst (run get_waiter self))) = replicate k (args self)
  /\ events (effects (fst (run get_waiter self))) =
       [failure_event ("Delete Cluster Failed: " +:+ str error);
        if decide (Z.of_nat k >= max_retries self)%Z
        then failure_event "Job Failed - max attempts reached."
        else success_event (job_id self)]
  /\ finish (fst (run get_waiter self)) = Returned.
Proof.
  intros Hk Hle Hp Hc Ht. unfold reply in *.
  destruct (hook_attributes self) as (_ & Hm & _).
  destruct (poll_terminal_at (snd (hook self))
              (get_waiter (fst (hook self)) "batch_job_complete") k error)
    as (es & Hes & Hev & Hq & _);
    rewrite ?hook_args, ?Hm; try done.
  rewrite (run_leave self _ Hes). simpl.
  rewrite !queries_app, !events_app, Hq, Hev, hook_args. simpl.
  split; [|done].
  rewrite app_nil_r. by apply replicate_pred_snoc.
Qed.

(** Every reply below the bound is a pending one. *)
Lemma exhausted (self : BatchOperatorTrigger) :
  (0 <= max_retries self)%Z ->
  (forall i, (Z.of_nat i < max_retries self)%Z ->
             is_pending (reply get_waiter self i) = true) ->
  queries (effects (fst (run get_waiter self))) =
    replicate (Z.to_nat (max_retries self)) (args self)
  /\ sleeps (effects (fst (run get_waiter self))) =
       replicate (Z.to_nat (max_retries self)) (poll_interval self)
  /\ events (effects (fst (run get_waiter self))) =
       [failure_event "Job Failed - max attempts reached."]
  /\ finish (fst (run get_waiter self)) = Returned.
Proof.
  intros Hle Hp. unfold reply in *.
  destruct (hook_attributes self) as (_ & Hm & _ & _ & Hi).
  destruct (poll_exhausted (snd (hook self))
              (get_waiter (fst (hook self)) "batch_job_complete"))
    as (es & Hes & Hev & Hq & Hs);
    rewrite ?hook_args, ?Hm; try done.
  rewrite (run_leave self _ Hes). simpl.
  rewrite !queries_app, !events_app, !sleeps_app, Hq, Hev, Hs, hook_args, Hm, Hi.
  simpl. rewrite !app_nil_r, decide_True by lia. done.
Qed.
End RunFacts.

(** ** The outcomes of [run] *)

Section Outcomes.

Import Batch Scenario.

(** C3. When the waiter reports a terminal failure at attempt [k], after
    pending replies at the attempts before it, [run] makes exactly [k]
    queries, none after attempt [k], and the first event it yields has
    exactly the entries ["status" = "failure"] and ["message"], where the
    message is ["Delete Cluster Failed: "] followed by the text of the
    error: this message contains ["terminal failure"] and every detail that
    the text of the error contains. The event of lines 104-107 comes after
    it. *)
Theorem terminal_failure_stops_polling
    (get_waiter : BatchClientHook -> string -> Waiter)
    (self : BatchOperatorTrigger) (k : nat) (error : WaiterError) :
  (1 <= k)%nat ->
  (Z.of_nat k <= max_retries self)%Z ->
  (forall i, (i < k - 1)%nat -> is_pending (reply get_waiter self i) = true) ->
  reply get_waiter self (k - 1) = RaisesWaiterError error ->
  str_contains "terminal failure" (str error) = true ->
  let out := effects (fst (run get_waiter self)) in
  queries out = replicate k (args self)
  /\ exists first closing message,
       events out = [first; closing]
       /\ payload first =
            {[ "status" := VStr "failure"; "message" := VStr message ]}
       /\ message = "Delete Cluster Failed: " +:+ str error
       /\ str_contains "terminal failure" message = true
       /\ (forall detail, str_contains detail (str error) = true ->
                          str_contains detail message = true)
       /\ payload closing =
            if decide (Z.of_nat k >= max_retries self)%Z
            then {[ "status" := VStr "failure";
                    "message" := VStr "Job Failed - max attempts reached." ]}
            else {[ "status" := VStr "success";
                    "job_id" := of_opt_str (job_id self) ]}.
Proof.
  intros Hk Hle Hp Hc Ht out.
  destruct (terminal_at get_waiter self k error) as (Hq & Hev & _); try done.
  split; [done|].
  eexists _, _, _. split; [exact Hev|]. split; [reflexivity|].
  split; [reflexivity|].
  split; [by apply str_contains_append_r|].
  split; [intros detail Hd; by apply str_contains_append_r|].
  by case_decide.
Qed.

Lemma terminal_failure_stops_polling_witness :
  let get_waiter := provider [Pending "RUNNING"; TerminalFailure "job killed"]
                             Completed in
  let out := effects (fst (run get_waiter job42)) in
  reply get_waiter job42 1 = TerminalFailure "job killed"
  /\ queries out = replicate 2 (args job42)
  /\ exists first message,
       head (events out) = Some first
       /\ payload first !! "status" = Some (VStr "failure")
       /\ payload first !! "message" = Some (VStr message)
       /\ str_contains "terminal failure" message = true
       /\ str_contains "job killed" message = true.
Proof.
  intros get_waiter out.
  destruct (terminal_failure_stops_polling get_waiter job42 2
              (terminal_error "job killed"))
    as (Hq & first & closing & message & Hev & Hpay & Hm & Ht & Hd & _).
  - lia.
  - simpl. lia.
  - intros i Hi. assert (i = 0%nat) as -> by lia. reflexivity.
  - reflexivity.
  - reflexivity.
  - split; [reflexivity|]. split; [exact Hq|].
    exists first, message.
    split; [unfold out; by rewrite Hev|].
    split; [rewrite Hpay; by simplify_map_eq|].
    split; [rewrite Hpay; by simplify_map_eq|].
    split; [exact Ht|]. apply Hd. reflexivity.
Defined.

(** C4. With [max_retries >= 1] and a pending reply at every attempt, [run]
    makes exactly [max_retries] queries, sleeps [poll_interval] after each
    of them, and then yields one event: it has exactly the entries
    ["status" = "failure"] and ["message"], and its message,
    ["Job Failed - max attempts reached."], contains
    ["max attempts reached"]. *)
Theorem pending_until_max_attempts
    (get_waiter : BatchClientHook -> string -> Waiter)
    (self : BatchOperatorTrigger) :
  (1 <= max_retries self)%Z ->
  (forall i, is_pending (reply get_waiter self i) = true) ->
  let out := fst (run get_waiter self) in
  queries (effects out) = replicate (Z.to_nat (max_retries self)) (args self)
  /\ sleeps (effects out) =
       replicate (Z.to_nat (max_retries self)) (poll_interval self)
  /\ (exists ev message,
        events (effects out) = [ev]
        /\ payload ev =
             {[ "status" := VStr "failure"; "message" := VStr message ]}
        /\ message = "Job Failed - max attempts reached."
        /\ str_contains "max attempts reached" message = true)
  /\ finish out = Returned.
Proof.
  intros Hn Hp out.
  destruct (exhausted get_waiter self) as (Hq & Hs & Hev & Hf); [lia | auto |].
  split; [done|]. split; [done|]. split; [|done].
  eexists _, _. split; [exact Hev|]. split; [reflexivity|]. done.
Qed.

Lemma pending_until_max_attempts_witness :
  let get_waiter := provider [] (Pending "RUNNABLE") in
  let self := init (Some "job-42") 1 (Some "aws_default") None 30 in
  let out := fst (run get_waiter self) in
  (1 <= max_retries self)%Z
  /\ queries (effects out) = [args self]
  /\ sleeps (effects out) = [30%Z]
  /\ exists ev message,
       events (effects out) = [ev]
       /\ payload ev !! "status" = Some (VStr "failure")
       /\ payload ev !! "message" = Some (VStr message)
       /\ str_contains "max attempts reached" message = true.
Proof.
  intros get_waiter self out.
  destruct (pending_until_max_attempts get_waiter self)
    as (Hq & Hs & (ev & message & Hev & Hpay & _ & Hm) & _).
  - simpl. lia.
  - intros i. reflexivity.
  - split; [simpl; lia|]. split; [exact Hq|]. split; [exact Hs|].
    exists ev, message. split; [exact Hev|].
    split; [rewrite Hpay; by simplify_map_eq|].
    split; [rewrite Hpay; by simplify_map_eq | exact Hm].
Defined.

(** C1. A terminal failure at the first of three attempts: [run] yields the
    failure event inside the loop, leaves the loop with [attempt = 1 < 3],
    and then yields a second event, a success. *)
Theorem terminal_failure_is_followed_by_a_second_event :
  let out := fst (run (provider [TerminalFailure "job killed"] Completed)
                      job42) in
  events (effects out) =
    [failure_event ("Delete Cluster Failed: " +:+ str (terminal_error "job killed"));
     success_event (Some "job-42")]
  /\ length (queries (effects out)) = 1%nat
  /\ finish out = Returned.
Proof. vm_compute. done. Qed.

(** C2. The job is reported done at the third of three attempts: [run] makes
    three queries, leaves the loop with [attempt = 3 >= 3], and yields the
    failure event of the exhausted attempts, not the success event. *)
Theorem success_on_last_attempt_is_reported_as_failure :
  let out := fst (run (provider [Pending "RUNNABLE"; Pending "RUNNING"; Completed]
                                Completed)
                      job42) in
  reply (provider [Pending "RUNNABLE"; Pending "RUNNING"; Completed] Completed)
        job42 2 = Completed
  /\ length (queries (effects out)) = 3%nat
  /\ events (effects out) = [failure_event "Job Failed - max attempts reached."]
  /\ events (effects out) <> [success_event (Some "job-42")].
Proof. vm_compute. repeat split; try done. Qed.

(** C5. A [WaiterError] whose text does not contain ["terminal failure"] and
    whose last response has no entry ["jobs"]: the log line raises
    [KeyError], and [run] ends after one query, with two attempts left,
    without a sleep, a retry or an event. *)
Theorem waiter_error_without_job_status_is_not_retried :
  let out := fst (run (provider [ErrorResponse] Completed) job42) in
  str_contains "terminal failure" (str error_response) = false
  /\ finish out = Raised (KeyError "jobs")
  /\ length (queries (effects out)) = 1%nat
  /\ sleeps (effects out) = []
  /\ events (effects out) = [].
Proof. vm_compute. done. Qed.

End Outcomes.



Section Events.

Import Batch Scenario.

(** C6. When the job id is a string, every event that [run] yields carries
    either exactly the entries ["status" = "success"] and ["job_id"], the
    job id of the instance, or exactly the entries ["status" = "failure"]
    and ["message"], a string. *)
Theorem event_shapes
    (get_waiter : BatchClientHook -> string -> Waiter)
    (self : BatchOperatorTrigger) (j : string) (ev : TriggerEvent) :
  job_id self = Some j ->
  ev ∈ events (effects (fst (run get_waiter self))) ->
  payload ev = {[ "status" := VStr "success"; "job_id" := VStr j ]}
  \/ exists message,
       payload ev = {[ "status" := VStr "failure"; "message" := VStr message ]}.
Proof.
  intros Hj Hin.
  rewrite (run_leave get_waiter self _ eq_refl) in Hin.
  set (r := poll _ _ _ _) in Hin.
  assert (Hloop : Forall (fun ev => exists message, ev = failure_event message)
                         (events (lr_effects r))).
  { apply (poll_events _ _ (Z.to_nat (max_retries (snd (hook self)) - 0))). lia. }
  rewrite Forall_forall in Hloop.
  destruct (lr_exit r); simpl in Hin;
    rewrite events_app in Hin; apply elem_of_app in Hin as [Hin|Hin].
  - destruct (Hloop _ Hin) as [message ->]. right. by exists message.
  - simpl in Hin. apply list_elem_of_singleton in Hin as ->.
    case_decide; [right; by eexists | left; by rewrite Hj].
  - destruct (Hloop _ Hin) as [message ->]. right. by exists message.
  - simpl in Hin. by apply elem_of_nil in Hin.
Qed.

Lemma event_shapes_witness :
  let get_waiter := provider [Completed] Completed in
  job_id job42 = Some "job-42"
  /\ success_event (Some "job-42")
       ∈ events (effects (fst (run get_waiter job42)))
  /\ (payload (success_event (Some "job-42"))
        = {[ "status" := VStr "success"; "job_id" := VStr "job-42" ]}
      \/ exists message,
           payload (success_event (Some "job-42"))
             = {[ "status" := VStr "failure"; "message" := VStr message ]}).
Proof.
  intros get_waiter.
  assert (Hin : success_event (Some "job-42")
                  ∈ events (effects (fst (run get_waiter job42))))
    by (vm_compute; apply list_elem_of_here).
  split; [reflexivity|]. split; [exact Hin|].
  exact (event_shapes get_waiter job42 "job-42" _ eq_refl Hin).
Defined.

(** C7. Calling [run] again on the instance that a first call left behind,
    with the same provider, gives the same effects, the same events among
    them and the same way of ending: the hook stored by the first call does
    not change the second one. *)
Theorem run_is_repeatable
    (get_waiter : BatchClientHook -> string -> Waiter)
    (self : BatchOperatorTrigger) :
  fst (run get_waiter (snd (run get_waiter self))) = fst (run get_waiter self).
Proof. rewrite !run_eq. simpl. by rewrite !hook_again. Qed.

(** [run] leaves the attributes as the constructor set them, so that
    [serialize] gives the same before and after a call. *)
Lemma serialize_after_run
    (get_waiter : BatchClientHook -> string -> Waiter)
    (self : BatchOperatorTrigger) :
  serialize (snd (run get_waiter self)) = serialize self.
Proof.
  rewrite run_eq. simpl. unfold serialize.
  by destruct (hook_attributes self) as (-> & -> & -> & -> & ->).
Qed.

(** C9. [serialize] returns the classpath of the class, the dotted name
    ["airflow.providers.amazon.aws.triggers.batch.BatchOperatorTrigger"],
    and a dictionary with exactly the five keys [job_id], [max_retries],
    [aws_conn_id], [region_name] and [poll_interval], each with the value
    of the attribute, which is the value the constructor was given, and the
    constructor called with that dictionary gives an instance with the same
    five attributes. *)
Theorem serialize_roundtrip (self : BatchOperatorTrigger) :
  fst (serialize self) =
    "airflow.providers.amazon.aws.triggers.batch.BatchOperatorTrigger"
  /\ dom (snd (serialize self)) =
       {[ "job_id"; "max_retries"; "aws_conn_id"; "region_name";
          "poll_interval" ]}
  /\ (forall j m a r p,
        snd (serialize (init j m a r p)) =
          {[ "job_id" := of_opt_str j;
             "max_retries" := VInt m;
             "aws_conn_id" := of_opt_str a;
             "region_name" := of_opt_str r;
             "poll_interval" := VInt p ]})
  /\ snd (serialize self) !! "job_id" = Some (of_opt_str (job_id self))
  /\ snd (serialize self) !! "max_retries" = Some (VInt (max_retries self))
  /\ snd (serialize self) !! "aws_conn_id" = Some (of_opt_str (aws_conn_id self))
  /\ snd (serialize self) !! "region_name" = Some (of_opt_str (region_name self))
  /\ snd (serialize self) !! "poll_interval" = Some (VInt (poll_interval self))
  /\ init_kwargs (snd (serialize self)) =
       inr (Some (init (job_id self) (max_retries self) (aws_conn_id self)
                       (region_name self) (poll_interval self))).
Proof.
  assert (Hdom : dom (snd (serialize self)) = parameters).
  { unfold serialize, parameters; simpl. rewrite !dom_insert_L, dom_singleton_L.
    set_solver. }
  split; [done|]. split; [done|]. split; [done|].
  assert (H1 : snd (serialize self) !! "job_id" = Some (of_opt_str (job_id self)))
    by (unfold serialize; simpl; by simplify_map_eq).
  assert (H2 : snd (serialize self) !! "max_retries" = Some (VInt (max_retries self)))
    by (unfold serialize; simpl; by simplify_map_eq).
  assert (H3 : snd (serialize self) !! "aws_conn_id" = Some (of_opt_str (aws_conn_id self)))
    by (unfold serialize; simpl; by simplify_map_eq).
  assert (H4 : snd (serialize self) !! "region_name" = Some (of_opt_str (region_name self)))
    by (unfold serialize; simpl; by simplify_map_eq).
  assert (H5 : snd (serialize self) !! "poll_interval" = Some (VInt (poll_interval self)))
    by (unfold serialize; simpl; by simplify_map_eq).
  repeat (split; [done|]).
  unfold init_kwargs. rewrite decide_True by (by rewrite Hdom).
  unfold kwarg. rewrite H1, H2, H3, H4, H5.
  by destruct (job_id self), (aws_conn_id self), (region_name self).
Qed.

End Events.

(** ** The Datadog hook *)


Section DatadogHook.

Import Datadog DatadogScenario.

Context {number : Type} `{Services number}.

(** C8. For a connection without the entry ["api_key"], the constructor
    raises [AirflowException] and has done nothing before: no log line, no
    set-up of the client library, no call of the monitoring API. With an
    API key, the constructor returns the hook, whatever the other entries
    are; an absent entry becomes [None]. In neither case a call of the
    monitoring API is made. *)
Theorem init_requires_api_key (conn_id : string) (conn : Connection) :
  get_connection number conn_id = inr conn ->
  (extra_dejson conn !! "api_key" = None ->
   init number conn_id =
     ([], inl (AirflowException
                 "api_key must be specified in the Datadog connection details")))
  /\ (forall key, extra_dejson conn !! "api_key" = Some key -> key <> VNone ->
      init number conn_id =
        ([LogInfo number "Setting up api keys for Datadog";
          Initialize number key
            (get_or_none (extra_dejson conn) "app_key")
            (get_or_none (extra_dejson conn) "api_host")],
         inr {| api_key := key;
                app_key := get_or_none (extra_dejson conn) "app_key";
                api_host := get_or_none (extra_dejson conn) "api_host";
                source_type_name :=
                  get_or_none (extra_dejson conn) "source_type_name";
                host := conn_host conn |}))
  /\ Forall (fun e => is_api_call number e = false) (fst (init number conn_id)).
Proof.
  intros Hconn. unfold init. rewrite Hconn. simpl.
  split; [|split].
  - intros Hk.
    assert (get_or_none (extra_dejson conn) "api_key" = VNone) as ->
      by (unfold get_or_none; by rewrite Hk).
    by rewrite decide_True.
  - intros key Hk Hne.
    assert (get_or_none (extra_dejson conn) "api_key" = key) as ->
      by (unfold get_or_none; by rewrite Hk).
    by rewrite decide_False.
  - case_decide; simpl; repeat constructor.
Qed.

End DatadogHook.

Section DatadogWitness.
Import Datadog DatadogScenario.
Lemma init_requires_api_key_witness :
  fst (@init Z services "datadog_no_key") = []
  /\ (exists msg, snd (@init Z services "datadog_no_key")
                  = inl (AirflowException msg))
  /\ (exists hook, snd (@init Z services "datadog_default") = inr hook
                   /\ app_key hook = VNone
                   /\ api_host hook = VNone
                   /\ source_type_name hook = VNone).
Proof.
  destruct (@init_requires_api_key Z services "datadog_no_key"
              {| conn_host := Some "worker-1"; extra_dejson := ∅ |} eq_refl)
    as (Hraise & _ & _).
  destruct (@init_requires_api_key Z services "datadog_default"
              {| conn_host := None;
                 extra_dejson := {[ "api_key" := VStr "0123456789abcdef" ]} |}
              eq_refl)
    as (_ & Hok & _).
  rewrite (Hraise eq_refl), (Hok _ eq_refl ltac:(discriminate)).
  split; [done|]. split; [by eexists|]. eexists. split; [done|]. done.
Defined.
End DatadogWitness.

Section DatadogResponses.

Import Datadog DatadogScenario.

Context {number : Type} `{Services number}.

Lemma validate_response_ok (r : gmap string value) :
  r !! "status" = Some (VStr "ok") ->
  validate_response number r = ([], inr tt).
Proof.
  intros Hr. unfold validate_response, getitem. rewrite Hr.
  by rewrite decide_False by (by intros []).
Qed.

Lemma validate_response_not_ok (r : gmap string value) :
  r !! "status" <> Some (VStr "ok") ->
  exists es e, validate_response number r = (es, inl e).
Proof.
  intros Hr. unfold validate_response, getitem.
  destruct (r !! "status") as [status|]; [|by eexists _, _].
  case_decide as Hs; [by eexists _, _|]. destruct Hr.
  f_equal. destruct (decide (status = VStr "ok")); [done | by destruct Hs].
Qed.

Lemma validated_passes_on (call : effect number) (r : gmap string value) :
  passes_on (snd (validated number call r)) r.
Proof.
  unfold passes_on, validated.
  destruct (decide (r !! "status" = Some (VStr "ok"))) as [Hok|Hno].
  - rewrite (validate_response_ok r Hok). simpl.
    split; [done|]. split; [done|]. by intros r' [= <-].
  - destruct (validate_response_not_ok r Hno) as (es & e & ->). simpl.
    split; [done|]. split; [by eexists|]. by intros r' [=].
Qed.

(** C10. [validate_response] raises [AirflowException] exactly when the
    response has a status and the status is not ["ok"], and returns exactly
    when the status is ["ok"]. [send_metric], [query_metric] and
    [post_event] return the response of the API as it is when its status is
    ["ok"] and raise otherwise, so that what they return has the status
    ["ok"]. *)
Theorem validate_response_raises_iff_not_ok :
  (forall r : gmap string value,
     ((exists msg, snd (validate_response number r) = inl (AirflowException msg))
      <-> exists status, r !! "status" = Some status /\ status <> VStr "ok")
     /\ (snd (validate_response number r) = inr tt
         <-> r !! "status" = Some (VStr "ok")))
  /\ (forall self metric_name datapoint tags type_ interval,
        passes_on
          (snd (send_metric number self metric_name datapoint tags type_ interval))
          (Metric_send number
             {| send_metric_name := metric_name;
                send_points := datapoint;
                send_host := host self;
                send_tags := tags;
                send_type := type_;
                send_interval := interval |}))
  /\ (forall now self query from_seconds_ago to_seconds_ago,
        passes_on
          (snd (query_metric number now self query from_seconds_ago to_seconds_ago))
          (Metric_query number
             {| query_start := now - from_seconds_ago;
                query_end := now - to_seconds_ago;
                query_query := query |}))
  /\ (forall self title text aggregation_key alert_type date_happened handle
             priority related_event_id tags device_name,
        passes_on
          (snd (post_event number self title text aggregation_key alert_type
                  date_happened handle priority related_event_id tags
                  device_name))
          (Event_create number
             {| event_title := title;
                event_text := text;
                event_aggregation_key := aggregation_key;
                event_alert_type := alert_type;
                event_date_happened := date_happened;
                event_handle := handle;
                event_priority := priority;
                event_related_event_id := related_event_id;
                event_tags := tags;
                event_host := host self;
                event_device_name := device_name;
                event_source_type_name := source_type_name self |})).
Proof.
  split; [|split; [|split]]; intros; try apply validated_passes_on.
  unfold validate_response, getitem.
  destruct (r !! "status") as [status|] eqn:E; simpl.
  - case_decide as Hs; simpl.
    + split; split.
      * intros _. by exists status.
      * intros _. by eexists.
      * discriminate.
      * intros [= ->]. by destruct Hs.
    + assert (status = VStr "ok") as ->
        by (destruct (decide (status = VStr "ok")); [done | by destruct Hs]).
      split; split; try done.
      * intros [msg [=]].
      * intros (status & [= <-] & Hne). by destruct Hne.
  - split; split; try done.
    + intros [msg [=]].
    + intros (status & [=] & _).
Qed.

End DatadogResponses.

(** * Further properties of the polling loop *)

Section PollInduction.

Import Batch.

Variable self : BatchOperatorTrigger.
Variable waiter : Waiter.

(** Induction along the turns of the loop: one case for each way in which
    a turn ends the loop, and one for the turn that goes on. *)
Lemma poll_turns (P : Z -> nat -> loop_result -> Prop) :
  (forall attempt calls,
     (max_retries self <= attempt)%Z ->
     P attempt calls
       {| lr_effects := []; lr_attempt := attempt; lr_exit := LoopEnded |}) ->
  (forall attempt calls,
     (attempt < max_retries self)%Z ->
     waiter (args self) calls = Completed ->
     P attempt calls
       {| lr_effects := [Wait (args self)];
          lr_attempt := attempt + 1;
          lr_exit := LoopEnded |}) ->
  (forall attempt calls e,
     (attempt < max_retries self)%Z ->
     waiter (args self) calls = RaisesOther e ->
     P attempt calls
       {| lr_effects := [Wait (args self)];
          lr_attempt := attempt + 1;
          lr_exit := LoopRaised e |}) ->
  (forall attempt calls error,
     (attempt < max_retries self)%Z ->
     waiter (args self) calls = RaisesWaiterError error ->
     str_contains "terminal failure" (str error) = true ->
     P attempt calls
       {| lr_effects :=
            [Wait (args self);
             Yield (failure_event ("Delete Cluster Failed: " +:+ str error))];
          lr_attempt := attempt + 1;
          lr_exit := LoopEnded |}) ->
  (forall attempt calls error e,
     (attempt < max_retries self)%Z ->
     waiter (args self) calls = RaisesWaiterError error ->
     str_contains "terminal failure" (str error) = false ->
     last_job_status (last_response error) = inl e ->
     P attempt calls
       {| lr_effects := [Wait (args self)];
          lr_attempt := attempt + 1;
          lr_exit := LoopRaised e |}) ->
  (forall attempt calls error status,
     (attempt < max_retries self)%Z ->
     waiter (args self) calls = RaisesWaiterError error ->
     str_contains "terminal failure" (str error) = false ->
     last_job_status (last_response error) = inr status ->
     P (attempt + 1)%Z (S calls) (poll self waiter (attempt + 1) (S calls)) ->
     P attempt calls
       (after [Wait (args self);
               LogInfo status (attempt + 1) (max_retries self);
               Sleep (poll_interval self)]
              (poll self waiter (attempt + 1) (S calls)))) ->
  forall attempt calls, P attempt calls (poll self waiter attempt calls).
Proof.
  intros Hend Hdone Hother Hterm Hlog Hnext attempt calls.
  remember (Z.to_nat (max_retries self - attempt)) as n eqn:Hn.
  revert attempt calls Hn.
  induction n as [n IH] using lt_wf_ind. intros attempt calls Hn.
  rewrite poll_eq. case_decide as Hlt; [|apply Hend; lia].
  destruct (waiter (args self) calls) as [|error|e] eqn:Hw.
  - by apply Hdone.
  - destruct (str_contains "terminal failure" (str error)) eqn:Ht.
    + by apply Hterm.
    + destruct (last_job_status (last_response error)) as [e|status] eqn:Hs.
      * by apply (Hlog _ _ error).
      * apply (Hnext _ _ error); try done.
        apply (IH (Z.to_nat (max_retries self - (attempt + 1)))); [lia|done].
  - by apply Hother.
Qed.

(** The counter counts the queries, and the loop makes no more of them
    than the bound leaves room for. *)
Lemma poll_counter (attempt : Z) (calls : nat) :
  let r := poll self waiter attempt calls in
  lr_attempt r = (attempt + Z.of_nat (length (queries (lr_effects r))))%Z
  /\ (length (queries (lr_effects r))
      <= Z.to_nat (max_retries self - attempt))%nat.
Proof.
  apply (poll_turns (fun attempt calls r =>
    lr_attempt r = (attempt + Z.of_nat (length (queries (lr_effects r))))%Z
    /\ (length (queries (lr_effects r))
        <= Z.to_nat (max_retries self - attempt))%nat));
    clear attempt calls; simpl; intros; lia.
Qed.


(** Every query has the arguments of lines 82-88, every sleep lasts
    [poll_interval], and a sleep follows every query but possibly the
    last. *)
Lemma poll_uniform (attempt : Z) (calls : nat) :
  let es := lr_effects (poll self waiter attempt calls) in
  Forall (fun a => a = args self) (queries es)
  /\ Forall (fun s => s = poll_interval self) (sleeps es)
  /\ (length (sleeps es) <= length (queries es) <= S (length (sleeps es)))%nat
  /\ Forall (fun e => Shape.is_conn e = false) es.
Proof.
  apply (poll_turns (fun attempt calls r =>
    Forall (fun a => a = args self) (queries (lr_effects r))
    /\ Forall (fun s => s = poll_interval self) (sleeps (lr_effects r))
    /\ (length (sleeps (lr_effects r)) <= length (queries (lr_effects r))
        <= S (length (sleeps (lr_effects r))))%nat
    /\ Forall (fun e => Shape.is_conn e = false) (lr_effects r)));
    clear attempt calls; simpl.
  1-5: intros; split_and!; try lia; by repeat constructor.
  intros attempt calls error status _ _ _ _ (Hq & Hs & Hn & Hc).
  split_and!; try lia; by repeat constructor.
Qed.

(** The loop goes on to a further query only after a pending reply. *)
Lemma poll_pending_before (attempt : Z) (calls : nat) :
  forall i, (calls <= i)%nat ->
    (S i < calls + length (queries (lr_effects (poll self waiter attempt calls))))%nat ->
    is_pending (waiter (args self) i) = true.
Proof.
  apply (poll_turns (fun attempt calls r =>
    forall i, (calls <= i)%nat ->
      (S i < calls + length (queries (lr_effects r)))%nat ->
      is_pending (waiter (args self) i) = true));
    clear attempt calls; simpl; try (intros; lia).
  intros attempt calls error status _ Hw Ht Hs IH i Hle Hlt.
  destruct (decide (i = calls)) as [->|Hne].
  - unfold is_pending. by rewrite Hw, Ht, Hs.
  - apply IH; lia.
Qed.

(** The loop yields at most one event, the failure event for the
    [WaiterError] of its last query, and then it ends without an
    exception. *)
Lemma poll_events_shape (attempt : Z) (calls : nat) :
  let r := poll self waiter attempt calls in
  events (lr_effects r) = []
  \/ exists error i,
       events (lr_effects r) =
         [failure_event ("Delete Cluster Failed: " +:+ str error)]
       /\ lr_exit r = LoopEnded
       /\ S i = (calls + length (queries (lr_effects r)))%nat
       /\ waiter (args self) i = RaisesWaiterError error
       /\ str_contains "terminal failure" (str error) = true.
Proof.
  apply (poll_turns (fun attempt calls r =>
    events (lr_effects r) = []
    \/ exists error i,
         events (lr_effects r) =
           [failure_event ("Delete Cluster Failed: " +:+ str error)]
         /\ lr_exit r = LoopEnded
         /\ S i = (calls + length (queries (lr_effects r)))%nat
         /\ waiter (args self) i = RaisesWaiterError error
         /\ str_contains "terminal failure" (str error) = true));
    clear attempt calls; simpl; try (intros; by left).
  - intros attempt calls error _ Hw Ht. right. exists error, calls.
    repeat split; try done. lia.
  - intros attempt calls error status _ _ _ _ [IH|IH]; [by left|right].
    destruct IH as (error' & i & Hev & Hx & Hi & Hw & Ht).
    exists error', i. repeat split; try done. lia.
Qed.

(** Queries and sleeps alternate: each query but possibly the last is
    followed by a sleep before the next query. *)
Lemma poll_steps (attempt : Z) (calls : nat) :
  exists (n : nat) (rest : list effect),
    filter (fun e => Shape.is_wait_or_sleep e = true)
           (lr_effects (poll self waiter attempt calls)) =
      concat (replicate n [Wait (args self); Sleep (poll_interval self)])
      ++ rest
    /\ (rest = [] \/ rest = [Wait (args self)]).
Proof.
  apply (poll_turns (fun attempt calls r =>
    exists (n : nat) (rest : list effect),
      filter (fun e => Shape.is_wait_or_sleep e = true) (lr_effects r) =
        concat (replicate n [Wait (args self); Sleep (poll_interval self)])
        ++ rest
      /\ (rest = [] \/ rest = [Wait (args self)])));
    clear attempt calls; simpl.
  - intros. exists 0%nat, []. by split; [|left].
  - intros. exists 0%nat, [Wait (args self)]. by split; [|right].
  - intros. exists 0%nat, [Wait (args self)]. by split; [|right].
  - intros. exists 0%nat, [Wait (args self)]. by split; [|right].
  - intros. exists 0%nat, [Wait (args self)]. by split; [|right].
  - intros attempt calls error status _ _ _ _ (n & rest & Hf & Hrest).
    exists (S n), rest. split; [|done].
    rewrite filter_cons_True by done.
    rewrite filter_cons_False by done.
    rewrite filter_cons_True by done.
    by rewrite Hf.
Qed.

End PollInduction.

(** * Further properties of [run] *)

Section RunShape.

Import Batch.

Variable get_waiter : BatchClientHook -> string -> Waiter.
Variable self : BatchOperatorTrigger.

(** What [run] adds around the effects of the loop. *)
Lemma run_shape (r : loop_result) :
  poll (snd (hook self))
       (get_waiter (fst (hook self)) "batch_job_complete") 0 0 = r ->
  effects (fst (run get_waiter self)) =
    ConnEnter (fst (hook self)) :: lr_effects r
    ++ ConnExit ::
       match lr_exit r with
       | LoopRaised _ => []
       | LoopEnded =>
           [Yield (if decide (lr_attempt r >= max_retries self)%Z
                   then failure_event "Job Failed - max attempts reached."
                   else success_event (job_id self))]
       end
  /\ finish (fst (run get_waiter self)) =
       match lr_exit r with
       | LoopRaised e => Raised e
       | LoopEnded => Returned
       end.
Proof.
  intros Hr. rewrite (run_leave get_waiter self r Hr).
  by destruct (lr_exit r).
Qed.

Lemma run_queries (r : loop_result) :
  poll (snd (hook self))
       (get_waiter (fst (hook self)) "batch_job_complete") 0 0 = r ->
  queries (effects (fst (run get_waiter self))) = queries (lr_effects r).
Proof.
  intros Hr. destruct (run_shape r Hr) as [-> _].
  change (ConnEnter ?h :: ?es) with ([ConnEnter h] ++ es).
  rewrite !queries_app. simpl.
  destruct (lr_exit r); simpl; by rewrite app_nil_r.
Qed.

Lemma run_sleeps (r : loop_result) :
  poll (snd (hook self))
       (get_waiter (fst (hook self)) "batch_job_complete") 0 0 = r ->
  sleeps (effects (fst (run get_waiter self))) = sleeps (lr_effects r).
Proof.
  intros Hr. destruct (run_shape r Hr) as [-> _].
  change (ConnEnter ?h :: ?es) with ([ConnEnter h] ++ es).
  rewrite !sleeps_app. simpl.
  destruct (lr_exit r); simpl; by rewrite app_nil_r.
Qed.

Lemma run_events (r : loop_result) :
  poll (snd (hook self))
       (get_waiter (fst (hook self)) "batch_job_complete") 0 0 = r ->
  events (effects (fst (run get_waiter self))) =
    events (lr_effects r)
    ++ match lr_exit r with
       | LoopRaised _ => []
       | LoopEnded =>
           [if decide (lr_attempt r >= max_retries self)%Z
            then failure_event "Job Failed - max attempts reached."
            else success_event (job_id self)]
       end.
Proof.
  intros Hr. destruct (run_shape r Hr) as [-> _].
  change (ConnEnter ?h :: ?es) with ([ConnEnter h] ++ es).
  rewrite !events_app. simpl.
  by destruct (lr_exit r).
Qed.

End RunShape.

Section RunBounds.

Import Batch Scenario.

(** X1. Whatever the waiter answers, [run] makes at most [max_retries]
    queries, and each of them asks for the job of the instance, with
    [poll_interval] as the delay and a single attempt of the waiter. *)
Theorem run_queries_are_bounded
    (get_waiter : BatchClientHook -> string -> Waiter)
    (self : BatchOperatorTrigger) :
  let out := effects (fst (run get_waiter self)) in
  (length (queries out) <= Z.to_nat (max_retries self))%nat
  /\ Forall (fun a => a = {| jobs := [job_id self];
                            Delay := poll_interval self;
                            MaxAttempts := 1 |})
            (queries out).
Proof.
  simpl. rewrite (run_queries get_waiter self _ eq_refl).
  destruct (hook_attributes self) as (_ & Hm & _).
  split.
  - pose proof (poll_counter (snd (hook self))
                  (get_waiter (fst (hook self)) "batch_job_complete") 0 0)
      as [_ Hle].
    simpl in Hle. rewrite Hm in Hle. by rewrite Z.sub_0_r in Hle.
  - pose proof (poll_uniform (snd (hook self))
                  (get_waiter (fst (hook self)) "batch_job_complete") 0 0)
      as (Hq & _).
    simpl in Hq. by rewrite hook_args in Hq.
Qed.

(** X2. [run] sleeps [poll_interval] and nothing else; in the order of the
    call, queries and sleeps alternate, starting with a query, so that a
    sleep comes after every query but possibly the last and before the next
    one; and a query is followed by another one only when its reply was a
    pending one. *)
Theorem run_retries_after_pending_and_sleep
    (get_waiter : BatchClientHook -> string -> Waiter)
    (self : BatchOperatorTrigger) :
  let out := effects (fst (run get_waiter self)) in
  Forall (fun s => s = poll_interval self) (sleeps out)
  /\ (length (sleeps out) <= length (queries out) <= S (length (sleeps out)))%nat
  /\ (exists (n : nat) (rest : list effect),
        filter (fun e => Shape.is_wait_or_sleep e = true) out =
          concat (replicate n [Wait (args self); Sleep (poll_interval self)])
          ++ rest
        /\ (rest = [] \/ rest = [Wait (args self)]))
  /\ (forall i, (S i < length (queries out))%nat ->
                is_pending (reply get_waiter self i) = true).
Proof.
  simpl. rewrite (run_queries get_waiter self _ eq_refl),
                 (run_sleeps get_waiter self _ eq_refl).
  destruct (hook_attributes self) as (_ & _ & _ & _ & Hi).
  pose proof (poll_uniform (snd (hook self))
                (get_waiter (fst (hook self)) "batch_job_complete") 0 0)
    as (_ & Hs & Hn & _).
  simpl in Hs, Hn. rewrite Hi in Hs.
  split; [done|]. split; [done|]. split.
  - destruct (poll_steps (snd (hook self))
                (get_waiter (fst (hook self)) "batch_job_complete") 0 0)
      as (n & rest & Hf & Hrest).
    rewrite hook_args, Hi in Hf. rewrite hook_args in Hrest.
    exists n, rest. split; [|done].
    destruct (run_shape get_waiter self _ eq_refl) as [-> _].
    rewrite filter_cons_False by done.
    rewrite filter_app, Hf, filter_cons_False by done.
    destruct (lr_exit _); simpl.
    + rewrite filter_cons_False, filter_nil by done. by rewrite app_nil_r.
    + by rewrite filter_nil, app_nil_r.
  - intros i Hlt. unfold reply. rewrite <- (hook_args self).
    apply (poll_pending_before (snd (hook self)) _ 0 0); [lia|done].
Qed.

(** X3. With [max_retries] zero or negative, [run] makes no query at all:
    it enters and leaves the connection and yields the failure event of
    the exhausted attempts. *)
Theorem run_without_attempts
    (get_waiter : BatchClientHook -> string -> Waiter)
    (self : BatchOperatorTrigger) :
  (max_retries self <= 0)%Z ->
  fst (run get_waiter self) =
    {| effects :=
         [ConnEnter (fst (hook self)); ConnExit;
          Yield (failure_event "Job Failed - max attempts reached.")];
       finish := Returned |}.
Proof.
  intros Hle. destruct (hook_attributes self) as (_ & Hm & _).
  assert (Hb : (max_retries (snd (hook self)) <= 0)%Z) by (rewrite Hm; lia).
  rewrite (run_leave get_waiter self _
             (poll_at_bound (snd (hook self))
                (get_waiter (fst (hook self)) "batch_job_complete") 0 0 Hb)).
  simpl. by rewrite decide_True by lia.
Qed.

Lemma run_without_attempts_witness :
  let self := init (Some "job-42") 0 (Some "aws_default") None 30 in
  (max_retries self <= 0)%Z
  /\ queries (effects (fst (run (provider [] Completed) self))) = []
  /\ events (effects (fst (run (provider [] Completed) self))) =
       [failure_event "Job Failed - max attempts reached."].
Proof.
  intros self.
  assert (Hle : (max_retries self <= 0)%Z) by (simpl; lia).
  split; [exact Hle|].
  by rewrite (run_without_attempts (provider [] Completed) self Hle).
Defined.

End RunBounds.

Section RunEndings.

Import Batch Scenario.

(** X6. When [run] returns, its last event is decided by the number of
    queries alone: the failure of the exhausted attempts when [max_retries]
    queries were made, the success event otherwise. At most one event
    comes before it, the failure event for a last query that raised a
    [WaiterError] with ["terminal failure"] in its text. *)
Theorem run_returned_events
    (get_waiter : BatchClientHook -> string -> Waiter)
    (self : BatchOperatorTrigger) :
  finish (fst (run get_waiter self)) = Returned ->
  let out := effects (fst (run get_waiter self)) in
  let closing :=
    if decide (Z.of_nat (length (queries out)) >= max_retries self)%Z
    then failure_event "Job Failed - max attempts reached."
    else success_event (job_id self) in
  events out = [closing]
  \/ exists error i,
       events out =
         [failure_event ("Delete Cluster Failed: " +:+ str error); closing]
       /\ S i = length (queries out)
       /\ reply get_waiter self i = RaisesWaiterError error
       /\ str_contains "terminal failure" (str error) = true.
Proof.
  intros Hf. simpl.
  set (r := poll (snd (hook self))
                 (get_waiter (fst (hook self)) "batch_job_complete") 0 0).
  destruct (run_shape get_waiter self r eq_refl) as [_ Hfin].
  rewrite (run_events get_waiter self r eq_refl),
          (run_queries get_waiter self r eq_refl).
  rewrite Hfin in Hf.
  destruct (lr_exit r) as [|e'] eqn:Hx; [|discriminate].
  pose proof (poll_counter (snd (hook self))
                (get_waiter (fst (hook self)) "batch_job_complete") 0 0)
    as [Ha _].
  simpl in Ha. fold r in Ha. rewrite Ha, Z.add_0_l.
  destruct (poll_events_shape (snd (hook self))
              (get_waiter (fst (hook self)) "batch_job_complete") 0 0)
    as [Hev|(error & i & Hev & _ & Hi & Hw & Ht)]; fold r in Hev.
  - left. by rewrite Hev.
  - right. exists error, i. fold r in Hi. rewrite hook_args in Hw.
    rewrite Hev. split; [done|]. split; [lia|done].
Qed.

Lemma run_returned_events_witness :
  let get_waiter := provider [Pending "RUNNING"; Completed] Completed in
  finish (fst (run get_waiter job42)) = Returned
  /\ events (effects (fst (run get_waiter job42))) =
       [success_event (Some "job-42")].
Proof.
  intros get_waiter.
  assert (Hf : finish (fst (run get_waiter job42)) = Returned) by reflexivity.
  split; [exact Hf|].
  destruct (run_returned_events get_waiter job42 Hf)
    as [Hev|(error & i & Hev & _)].
  - exact Hev.
  - vm_compute in Hev. discriminate Hev.
Defined.

End RunEndings.

Section PollOther.

Import Batch.

Variable self : BatchOperatorTrigger.
Variable waiter : Waiter.

Lemma poll_other_at (k : nat) (e : exn) :
  (1 <= k)%nat ->
  (Z.of_nat k <= max_retries self)%Z ->
  (forall i, (i < k - 1)%nat -> is_pending (waiter (args self) i) = true) ->
  waiter (args self) (k - 1) = RaisesOther e ->
  exists es,
    poll self waiter 0 0 =
      {| lr_effects := es ++ [Wait (args self)];
         lr_attempt := Z.of_nat k;
         lr_exit := LoopRaised e |}
    /\ events es = []
    /\ queries es = replicate (k - 1) (args self)
    /\ sleeps es = replicate (k - 1) (poll_interval self).
Proof.
  intros Hk Hle Hp Hc.
  destruct (poll_reaches self waiter k) as (es & Hes & Hrest); [done..|].
  exists es. split; [|done].
  rewrite Hes, poll_eq, decide_True, Hc by lia. unfold after; simpl.
  do 2 f_equal. lia.
Qed.

End PollOther.

Section RunScenarios.

Import Batch Scenario.

(** X7. When the waiter returns at attempt [k], before the last attempt and
    after pending replies, [run] makes exactly [k] queries, sleeps after
    each of the [k - 1] pending ones, and yields one event, the success
    event with the job id of the instance. *)
Theorem success_before_last_attempt
    (get_waiter : BatchClientHook -> string -> Waiter)
    (self : BatchOperatorTrigger) (k : nat) :
  (1 <= k)%nat ->
  (Z.of_nat k < max_retries self)%Z ->
  (forall i, (i < k - 1)%nat -> is_pending (reply get_waiter self i) = true) ->
  reply get_waiter self (k - 1) = Completed ->
  let out := fst (run get_waiter self) in
  queries (effects out) = replicate k (args self)
  /\ length (sleeps (effects out)) = (k - 1)%nat
  /\ events (effects out) = [success_event (job_id self)]
  /\ finish out = Returned.
Proof.
  intros Hk Hlt Hp Hc. simpl. unfold reply in *.
  destruct (hook_attributes self) as (_ & Hm & _ & _ & Hi).
  destruct (poll_completed_at (snd (hook self))
              (get_waiter (fst (hook self)) "batch_job_complete") k)
    as (es & Hes & Hev & Hq & Hs);
    rewrite ?hook_args, ?Hm; try done; [lia|].
  rewrite (run_leave get_waiter self _ Hes). simpl.
  rewrite !queries_app, !events_app, !sleeps_app, Hq, Hev, Hs, hook_args.
  simpl. rewrite !app_nil_r, length_replicate, decide_False by lia.
  split; [by apply replicate_pred_snoc|done].
Qed.

Lemma success_before_last_attempt_witness :
  let get_waiter := provider [Pending "RUNNABLE"; Completed] Completed in
  let out := fst (run get_waiter job42) in
  reply get_waiter job42 1 = Completed
  /\ queries (effects out) = replicate 2 (args job42)
  /\ events (effects out) = [success_event (Some "job-42")].
Proof.
  intros get_waiter out.
  destruct (success_before_last_attempt get_waiter job42 2)
    as (Hq & _ & Hev & _).
  - lia.
  - simpl. lia.
  - intros i Hi. assert (i = 0%nat) as -> by lia. reflexivity.
  - reflexivity.
  - split; [reflexivity|]. split; [exact Hq | exact Hev].
Defined.

(** X8. An exception of the waiter that is no [WaiterError] is not caught:
    when it comes at attempt [k], after pending replies, [run] ends with
    that exception after exactly [k] queries, whatever is left of
    [max_retries], and yields no event. *)
Theorem other_exception_is_not_retried
    (get_waiter : BatchClientHook -> string -> Waiter)
    (self : BatchOperatorTrigger) (k : nat) (e : exn) :
  (1 <= k)%nat ->
  (Z.of_nat k <= max_retries self)%Z ->
  (forall i, (i < k - 1)%nat -> is_pending (reply get_waiter self i) = true) ->
  reply get_waiter self (k - 1) = RaisesOther e ->
  let out := fst (run get_waiter self) in
  finish out = Raised e
  /\ queries (effects out) = replicate k (args self)
  /\ length (sleeps (effects out)) = (k - 1)%nat
  /\ events (effects out) = [].
Proof.
  intros Hk Hle Hp Hc. simpl. unfold reply in *.
  destruct (hook_attributes self) as (_ & Hm & _ & _ & Hi).
  destruct (poll_other_at (snd (hook self))
              (get_waiter (fst (hook self)) "batch_job_complete") k e)
    as (es & Hes & Hev & Hq & Hs);
    rewrite ?hook_args, ?Hm; try done.
  rewrite (run_leave get_waiter self _ Hes). simpl.
  rewrite !queries_app, !events_app, !sleeps_app, Hq, Hev, Hs, hook_args.
  simpl. rewrite !app_nil_r, length_replicate.
  split; [done|]. split; [by apply replicate_pred_snoc|done].
Qed.

Lemma other_exception_is_not_retried_witness :
  let get_waiter :=
    provider [Pending "RUNNING"; RaisesOther (OtherError "connection reset")]
             Completed in
  let out := fst (run get_waiter job42) in
  reply get_waiter job42 1 = RaisesOther (OtherError "connection reset")
  /\ finish out = Raised (OtherError "connection reset")
  /\ queries (effects out) = replicate 2 (args job42)
  /\ events (effects out) = [].
Proof.
  intros get_waiter out.
  destruct (other_exception_is_not_retried get_waiter job42 2
              (OtherError "connection reset"))
    as (Hf & Hq & _ & Hev).
  - lia.
  - simpl. lia.
  - intros i Hi. assert (i = 0%nat) as -> by lia. reflexivity.
  - reflexivity.
  - split; [reflexivity|]. split; [exact Hf|]. split; [exact Hq | exact Hev].
Defined.

End RunScenarios.

Section Instance.

Import Batch Scenario.

(** X9. [run] changes nothing on the instance but the slot of the cached
    hook: the five attributes stay, and the slot holds the hook with which
    the call entered the connection, so that the next access to [hook]
    returns that one. For an instance whose slot was empty, as the
    constructor leaves it, this is the hook of its [aws_conn_id] and
    [region_name]. *)
Theorem run_only_fills_the_hook_slot
    (get_waiter : BatchClientHook -> string -> Waiter)
    (self : BatchOperatorTrigger) :
  let self' := snd (run get_waiter self) in
  job_id self' = job_id self
  /\ max_retries self' = max_retries self
  /\ aws_conn_id self' = aws_conn_id self
  /\ region_name self' = region_name self
  /\ poll_interval self' = poll_interval self
  /\ hook_cache self' = Some (fst (hook self))
  /\ head (effects (fst (run get_waiter self))) = Some (ConnEnter (fst (hook self)))
  /\ fst (hook self') = fst (hook self)
  /\ (hook_cache self = None ->
      fst (hook self) = Shape.hook_of_attributes self).
Proof.
  simpl. destruct (run_shape get_waiter self _ eq_refl) as [-> _].
  rewrite run_eq. simpl. rewrite hook_again. simpl.
  destruct (hook_attributes self) as (-> & -> & -> & -> & ->).
  split_and!; try done.
  - unfold hook. by destruct (hook_cache self) eqn:E.
  - intros Hnone. unfold hook. by rewrite Hnone.
Qed.

(** X10. The serialized form tells the five attributes apart: two
    instances with the same result of [serialize] have the same job id,
    bound, connection id, region and interval. *)
Theorem serialize_is_injective (self other : BatchOperatorTrigger) :
  serialize self = serialize other ->
  job_id self = job_id other
  /\ max_retries self = max_retries other
  /\ aws_conn_id self = aws_conn_id other
  /\ region_name self = region_name other
  /\ poll_interval self = poll_interval other.
Proof.
  unfold serialize. intros Heq. apply (f_equal snd) in Heq. simpl in Heq.
  assert (Hopt : forall a b, of_opt_str a = of_opt_str b -> a = b).
  { intros [a|] [b|]; simpl; congruence. }
  pose proof (f_equal (fun m => m !! "job_id") Heq) as Ej.
  pose proof (f_equal (fun m => m !! "max_retries") Heq) as Em.
  pose proof (f_equal (fun m => m !! "aws_conn_id") Heq) as Ea.
  pose proof (f_equal (fun m => m !! "region_name") Heq) as Er.
  pose proof (f_equal (fun m => m !! "poll_interval") Heq) as Ep.
  simpl in *. simplify_map_eq.
  split_and!; try (apply Hopt); congruence.
Qed.

Lemma serialize_is_injective_witness :
  let other := snd (run (provider [] Completed) job42) in
  serialize job42 = serialize other
  /\ hook_cache job42 <> hook_cache other
  /\ max_retries job42 = max_retries other.
Proof.
  intros other.
  assert (Heq : serialize job42 = serialize other) by reflexivity.
  destruct (serialize_is_injective job42 other Heq) as (_ & Hm & _).
  split; [exact Heq|]. split; [discriminate | exact Hm].
Defined.

End Instance.

Section Kwargs.

Import Batch Scenario.

Lemma kwarg_as_opt_str (kwargs : gmap string value) (key : string)
    (d x : option string) :
  kwarg kwargs key as_opt_str d = Some x ->
  union_with (fun v _ => Some v) (kwargs !! key) (Some (of_opt_str d))
  = Some (of_opt_str x).
Proof.
  unfold kwarg. destruct (kwargs !! key) as [v|]; simpl.
  - destruct v; simpl; try discriminate; by intros [= <-].
  - by intros [= <-].
Qed.

Lemma kwarg_as_int (kwargs : gmap string value) (key : string) (d x : Z) :
  kwarg kwargs key as_int d = Some x ->
  union_with (fun v _ => Some v) (kwargs !! key) (Some (VInt d))
  = Some (VInt x).
Proof.
  unfold kwarg. destruct (kwargs !! key) as [v|]; simpl.
  - destruct v; simpl; try discriminate; by intros [= <-].
  - by intros [= <-].
Qed.

(** X11. When the constructor is called with a dictionary of keyword
    arguments whose values are of the annotated types, [serialize] on the
    new instance returns exactly that dictionary completed with the
    defaults of the signature for the keywords left out: [job_id] [None],
    [max_retries] 10, [aws_conn_id] ["aws_default"], [region_name] [None]
    and [poll_interval] 30. The slot of the cached hook is empty. *)
Theorem serialize_returns_the_keyword_arguments
    (kwargs : gmap string value) (self : BatchOperatorTrigger) :
  init_kwargs kwargs = inr (Some self) ->
  snd (serialize self) =
    kwargs ∪ {[ "job_id" := VNone;
                "max_retries" := VInt 10;
                "aws_conn_id" := VStr "aws_default";
                "region_name" := VNone;
                "poll_interval" := VInt 30 ]}
  /\ hook_cache self = None.
Proof.
  unfold init_kwargs. case_decide as Hdom; [|discriminate].
  destruct (kwarg kwargs "job_id" as_opt_str default_job_id)
    as [j|] eqn:Ej; [|discriminate].
  destruct (kwarg kwargs "max_retries" as_int default_max_retries)
    as [m|] eqn:Em; [|discriminate].
  destruct (kwarg kwargs "aws_conn_id" as_opt_str default_aws_conn_id)
    as [a|] eqn:Ea; [|discriminate].
  destruct (kwarg kwargs "region_name" as_opt_str default_region_name)
    as [r|] eqn:Er; [|discriminate].
  destruct (kwarg kwargs "poll_interval" as_int default_poll_interval)
    as [p|] eqn:Ep; [|discriminate].
  simpl. intros [= <-]. split; [|done].
  apply kwarg_as_opt_str in Ej, Ea, Er. apply kwarg_as_int in Em, Ep.
  unfold serialize, init; simpl.
  apply map_eq. intros key. rewrite lookup_union.
  destruct (decide (key = "job_id")) as [->|Hj];
    [by simplify_map_eq|].
  destruct (decide (key = "max_retries")) as [->|Hm];
    [by simplify_map_eq|].
  destruct (decide (key = "aws_conn_id")) as [->|Ha];
    [by simplify_map_eq|].
  destruct (decide (key = "region_name")) as [->|Hr];
    [by simplify_map_eq|].
  destruct (decide (key = "poll_interval")) as [->|Hp];
    [by simplify_map_eq|].
  assert (Hout : kwargs !! key = None).
  { apply not_elem_of_dom. intros Hin. apply Hdom in Hin.
    unfold parameters in Hin.
    rewrite !elem_of_union, !elem_of_singleton in Hin.
    destruct Hin as [[[[Hin|Hin]|Hin]|Hin]|Hin]; congruence. }
  rewrite Hout. by simplify_map_eq.
Qed.

Lemma serialize_returns_the_keyword_arguments_witness :
  let kwargs : gmap string value :=
    {[ "job_id" := VStr "job-42"; "max_retries" := VInt 3 ]} in
  init_kwargs kwargs = inr (Some job42)
  /\ snd (serialize job42) !! "max_retries" = Some (VInt 3)
  /\ snd (serialize job42) !! "poll_interval" = Some (VInt 30).
Proof.
  intros kwargs.
  assert (Hk : init_kwargs kwargs = inr (Some job42))
    by (vm_compute; reflexivity).
  destruct (serialize_returns_the_keyword_arguments kwargs job42 Hk)
    as [Heq _].
  split; [exact Hk|]. rewrite Heq. split; reflexivity.
Defined.

End Kwargs.

(** * Further properties of the Datadog hook *)

Section DatadogConstruction.

Import Datadog DatadogScenario.

Context {number : Type} `{Services number}.

(** X12. The constructor returns a hook exactly when the connection exists
    and its extra has an entry ["api_key"] that is not [None]; the hook
    then carries that key, the other three entries or [None], and the host
    of the connection. When it raises, it has done nothing, and the
    exception is the one of the connection store or the [AirflowException]
    about the key. *)
Theorem init_returns_iff (conn_id : string) :
  (forall hook,
     snd (init number conn_id) = inr hook <->
     exists conn key,
       get_connection number conn_id = inr conn
       /\ extra_dejson conn !! "api_key" = Some key
       /\ key <> VNone
       /\ hook = {| api_key := key;
                    app_key := get_or_none (extra_dejson conn) "app_key";
                    api_host := get_or_none (extra_dejson conn) "api_host";
                    source_type_name :=
                      get_or_none (extra_dejson conn) "source_type_name";
                    host := conn_host conn |})
  /\ (forall e,
        snd (init number conn_id) = inl e ->
        fst (init number conn_id) = []
        /\ (get_connection number conn_id = inl e
            \/ e = AirflowException
                     "api_key must be specified in the Datadog connection details")).
Proof.
  unfold init.
  destruct (get_connection number conn_id) as [e0|conn] eqn:Hconn; simpl.
  - split.
    + intros hook. split; [discriminate|]. by intros (conn & key & [=] & _).
    + intros e [= ->]. split; [done|by left].
  - destruct (extra_dejson conn !! "api_key") as [key|] eqn:Hk.
    + assert (get_or_none (extra_dejson conn) "api_key" = key) as ->
        by (unfold get_or_none; by rewrite Hk).
      destruct (decide (key = VNone)) as [->|Hne]; simpl.
      * split.
        -- intros hook. split; [discriminate|].
           intros (conn' & key & [= <-] & Hk' & Hne & _). congruence.
        -- intros e [= <-]. split; [done|by right].
      * split.
        -- intros hook. split.
           ++ intros [= <-]. by exists conn, key.
           ++ intros (conn' & key' & [= <-] & Hk' & _ & ->). congruence.
        -- discriminate.
    + assert (get_or_none (extra_dejson conn) "api_key" = VNone) as ->
        by (unfold get_or_none; by rewrite Hk).
      rewrite decide_True by done. simpl. split.
      * intros hook. split; [discriminate|].
        intros (conn' & key & [= <-] & Hk' & _). congruence.
      * intros e [= <-]. split; [done|by right].
Qed.

End DatadogConstruction.

Section DatadogCalls.

Import Datadog DatadogScenario.

Context {number : Type} `{Services number}.

(** The three outcomes of validating a reply after the call [call]. *)
Lemma validated_cases (call : effect number) (r : gmap string value) :
  (r !! "status" = Some (VStr "ok")
   /\ validated number call r = ([call], inr r))
  \/ (r !! "status" = None
      /\ validated number call r = ([call], inl (KeyError "status")))
  \/ (exists status,
        r !! "status" = Some status /\ status <> VStr "ok"
        /\ validated number call r =
             ([call; LogError number "Datadog returned: %s" r],
              inl (AirflowException "Error status received from Datadog"))).
Proof.
  unfold validated, validate_response, getitem.
  destruct (r !! "status") as [status|] eqn:E; simpl.
  - case_decide as Hs; simpl.
    + right; right. by exists status.
    + left. split; [|done]. f_equal.
      destruct (decide (status = VStr "ok")); [done | by destruct Hs].
  - right; left. done.
Qed.

Lemma validated_head (call : effect number) (r : gmap string value) :
  head (fst (validated number call r)) = Some call.
Proof.
  destruct (validated_cases call r)
    as [[_ ->]|[[_ ->]|(status & _ & _ & ->)]]; done.
Qed.

(** X13. A reply of the API without the entry ["status"] makes
    [validate_response] raise [KeyError] from the lookup, before anything
    is logged; [send_metric], [query_metric] and [post_event] then raise
    that [KeyError] after their one call of the API. *)
Theorem missing_status_raises_key_error :
  (forall r : gmap string value,
     r !! "status" = None ->
     validate_response number r = ([], inl (KeyError "status")))
  /\ (forall self metric_name datapoint tags type_ interval,
        let a := {| send_metric_name := metric_name;
                    send_points := datapoint;
                    send_host := host self;
                    send_tags := tags;
                    send_type := type_;
                    send_interval := interval |} in
        Metric_send number a !! "status" = None ->
        send_metric number self metric_name datapoint tags type_ interval =
          ([MetricSend number a], inl (KeyError "status")))
  /\ (forall now self query from_seconds_ago to_seconds_ago,
        let a := {| query_start := now - from_seconds_ago;
                    query_end := now - to_seconds_ago;
                    query_query := query |} in
        Metric_query number a !! "status" = None ->
        query_metric number now self query from_seconds_ago to_seconds_ago =
          ([MetricQuery number a], inl (KeyError "status")))
  /\ (forall self title text aggregation_key alert_type date_happened handle
             priority related_event_id tags device_name,
        let a := {| event_title := title;
                    event_text := text;
                    event_aggregation_key := aggregation_key;
                    event_alert_type := alert_type;
                    event_date_happened := date_happened;
                    event_handle := handle;
                    event_priority := priority;
                    event_related_event_id := related_event_id;
                    event_tags := tags;
                    event_host := host self;
                    event_device_name := device_name;
                    event_source_type_name := source_type_name self |} in
        Event_create number a !! "status" = None ->
        post_event number self title text aggregation_key alert_type
          date_happened handle priority related_event_id tags device_name =
          ([EventCreate number a], inl (KeyError "status"))).
Proof.
  assert (Hv : forall (call : effect number) (r : gmap string value),
             r !! "status" = None ->
             validated number call r = ([call], inl (KeyError "status"))).
  { intros call r Hr.
    destruct (validated_cases call r)
      as [[Hok _]|[[_ Hv]|(status & Hs & _)]]; congruence. }
  split; [|split; [|split]].
  - intros r Hr. unfold validate_response, getitem. by rewrite Hr.
  - intros. by apply Hv.
  - intros. by apply Hv.
  - intros. by apply Hv.
Qed.

(** X14. Each of the three methods calls the API exactly once, before
    anything else, whatever the reply is: a raised exception does not mean
    that nothing was sent. The reply is logged as an error exactly when
    the method raises the [AirflowException] about the status. *)
Theorem methods_call_the_api_once :
  let once (result : list (effect number) * (exn + gmap string value))
           (call : effect number) (reply : gmap string value) :=
    head (fst result) = Some call
    /\ filter (fun e => is_api_call number e = true) (fst result) = [call]
    /\ (LogError number "Datadog returned: %s" reply ∈ fst result
        <-> snd result =
              inl (AirflowException "Error status received from Datadog")) in
  (forall self metric_name datapoint tags type_ interval,
     let a := {| send_metric_name := metric_name;
                 send_points := datapoint;
                 send_host := host self;
                 send_tags := tags;
                 send_type := type_;
                 send_interval := interval |} in
     once (send_metric number self metric_name datapoint tags type_ interval)
          (MetricSend number a) (Metric_send number a))
  /\ (forall now self query from_seconds_ago to_seconds_ago,
        let a := {| query_start := now - from_seconds_ago;
                    query_end := now - to_seconds_ago;
                    query_query := query |} in
        once (query_metric number now self query from_seconds_ago to_seconds_ago)
             (MetricQuery number a) (Metric_query number a))
  /\ (forall self title text aggregation_key alert_type date_happened handle
             priority related_event_id tags device_name,
        let a := {| event_title := title;
                    event_text := text;
                    event_aggregation_key := aggregation_key;
                    event_alert_type := alert_type;
                    event_date_happened := date_happened;
                    event_handle := handle;
                    event_priority := priority;
                    event_related_event_id := related_event_id;
                    event_tags := tags;
                    event_host := host self;
                    event_device_name := device_name;
                    event_source_type_name := source_type_name self |} in
        once (post_event number self title text aggregation_key alert_type
                date_happened handle priority related_event_id tags device_name)
             (EventCreate number a) (Event_create number a)).
Proof.
  assert (Hv : forall (call : effect number) (r : gmap string value),
             is_api_call number call = true ->
             head (fst (validated number call r)) = Some call
             /\ filter (fun e => is_api_call number e = true)
                       (fst (validated number call r)) = [call]
             /\ (LogError number "Datadog returned: %s" r
                   ∈ fst (validated number call r)
                 <-> snd (validated number call r) =
                       inl (AirflowException
                              "Error status received from Datadog"))).
  { intros call r Hcall.
    destruct (validated_cases call r)
      as [[_ ->]|[[_ ->]|(status & _ & _ & ->)]]; simpl.
    - split; [done|]. split.
      + by rewrite filter_cons_True, filter_nil by done.
      + split; [|discriminate]. intros Hin.
        apply list_elem_of_singleton in Hin. by rewrite <- Hin in Hcall.
    - split; [done|]. split.
      + by rewrite filter_cons_True, filter_nil by done.
      + split; [|discriminate]. intros Hin.
        apply list_elem_of_singleton in Hin. by rewrite <- Hin in Hcall.
    - split; [done|]. split.
      + rewrite filter_cons_True by done.
        by rewrite filter_cons_False, filter_nil by done.
      + split; [done|]. intros _. apply list_elem_of_further, list_elem_of_here. }
  simpl. split; [|split]; intros; by apply Hv.
Qed.

(** X15. The host of the connection that the constructor read goes out
    with every metric and every event that the hook sends, and the
    [source_type_name] of the connection with every event. *)
Theorem connection_host_reaches_the_api (conn_id : string) (conn : Connection)
    (hook : DatadogHook) :
  get_connection number conn_id = inr conn ->
  snd (init number conn_id) = inr hook ->
  (forall metric_name datapoint tags type_ interval,
     exists a,
       head (fst (send_metric number hook metric_name datapoint tags type_
                    interval))
         = Some (MetricSend number a)
       /\ send_host number a = conn_host conn)
  /\ (forall title text aggregation_key alert_type date_happened handle
             priority related_event_id tags device_name,
        exists a,
          head (fst (post_event number hook title text aggregation_key
                       alert_type date_happened handle priority
                       related_event_id tags device_name))
            = Some (EventCreate number a)
          /\ event_host a = conn_host conn
          /\ event_source_type_name a =
               get_or_none (extra_dejson conn) "source_type_name").
Proof.
  intros Hconn Hinit. unfold init in Hinit. rewrite Hconn in Hinit.
  simpl in Hinit. case_decide; [discriminate|]. simpl in Hinit.
  injection Hinit as <-.
  split.
  - intros. eexists. unfold send_metric. split; [apply validated_head|done].
  - intros. eexists. unfold post_event. split; [apply validated_head|done].
Qed.

End DatadogCalls.

Section DatadogCallsWitness.

Import Datadog DatadogScenario.

Lemma missing_status_raises_key_error_witness :
  let self := {| api_key := VStr "0123456789abcdef";
                 app_key := VNone;
                 api_host := VNone;
                 source_type_name := VNone;
                 host := Some "worker-1" |} in
  let a := {| send_metric_name := "rows";
              send_points := 7%Z;
              send_host := Some "worker-1";
              send_tags := None;
              send_type := None;
              send_interval := None |} in
  @Metric_send Z refusing_services a !! "status" = None
  /\ @send_metric Z refusing_services self "rows" 7%Z None None None =
       ([MetricSend Z a], inl (KeyError "status")).
Proof.
  intros self a.
  destruct (@missing_status_raises_key_error Z refusing_services)
    as (_ & Hsend & _).
  split; [reflexivity|].
  apply (Hsend self "rows" 7%Z None None None). reflexivity.
Defined.

Lemma connection_host_reaches_the_api_witness :
  let conn := {| conn_host := Some "worker-1";
                 extra_dejson :=
                   {[ "api_key" := VStr "0123456789abcdef";
                      "source_type_name" := VStr "airflow" ]} |} in
  let store : Services Z :=
    {| get_connection := fun _ => inr conn;
       Metric_send := fun _ => {[ "status" := VStr "ok" ]};
       Metric_query := fun _ => {[ "status" := VStr "ok" ]};
       Event_create := fun _ => {[ "status" := VStr "ok" ]} |} in
  exists hook a,
    snd (@init Z store "datadog_default") = inr hook
    /\ head (fst (@send_metric Z store hook "rows" 7%Z None None None))
         = Some (MetricSend Z a)
    /\ send_host Z a = Some "worker-1".
Proof.
  intros conn store.
  destruct (@init Z store "datadog_default") as [es [e|hook]] eqn:Hinit;
    [discriminate Hinit|].
  exists hook.
  destruct (@connection_host_reaches_the_api Z store "datadog_default" conn hook
              eq_refl)
    as [Hsend _].
  - by rewrite Hinit.
  - destruct (Hsend "rows" 7%Z None None None) as (a & Ha & Hh).
    exists a. split; [reflexivity|]. split; [exact Ha | exact Hh].
Defined.

End DatadogCallsWitness.
